(** * Cahier de Tests ERP: a shallow embedding of [src/App.tsx]

    The application keeps one [AppData] value in React state, edits it
    through [setData] updaters, mirrors every step's [content] in a
    Quill editor, saves and restores the whole value as JSON, and
    projects it into the printable markup of [PrintContent].

    Conventions of the embedding.
    - A JavaScript string is a Rocq [string] holding its UTF-8 bytes, the
      form in which the [Blob] of [downloadJSON] stores it and
      [readAsText] hands it back.  Every byte of a multi-byte UTF-8
      sequence is at least 128, so a test on an ASCII character
      (a digit, a quote, a control character) reads the same on bytes
      as on characters.
    - A [setData (prev => ...)] call is the function from [prev] to the
      next value.
    - A handler that talks to the outside (alert, print, timers) returns
      the list of those calls next to the state it leaves.
    - The file under [src/] holds two revisions of [App.tsx].  The
      definitions at top level follow the later one; [Module Legacy]
      holds what only the earlier one has. *)

From Stdlib Require Import String Ascii List Bool Arith NArith Lia.
From Stdlib Require Import DecimalString.
Import ListNotations.
Open Scope list_scope.
Open Scope string_scope.
Set Warnings "-register-all".

(** ** Characters that a string literal cannot spell *)

Definition dquote : ascii := "034"%char.
Definition backslash : ascii := "092"%char.
Definition newline : ascii := "010"%char.
Definition nl : string := String newline EmptyString.

(** ** Data model: [interface TestStep], [interface AppData] *)

Record TestStep := mkStep {
  id : string;
  title : string;
  content : string
}.

Inductive JiraType := TMD | TMA.
Inductive Environment := FRECMCOR | FPOST.
Inductive Conclusion := OK | KO.

Record AppData := mkData {
  jiraNumber : string;
  jiraName : string;
  type : JiraType;
  date : string;
  environment : Environment;
  conclusion : Conclusion;
  localImage : option string;
  steps : list TestStep
}.

Definition JiraType_str (t : JiraType) : string :=
  match t with TMD => "TMD" | TMA => "TMA" end.

Definition Environment_str (e : Environment) : string :=
  match e with FRECMCOR => "FRECMCOR" | FPOST => "FPOST" end.

Definition Conclusion_str (c : Conclusion) : string :=
  match c with OK => "OK" | KO => "KO" end.

(** [`${n}`]: a length printed in decimal. *)
Definition decimal (n : nat) : string :=
  NilZero.string_of_uint (Nat.to_uint n).

(** [INITIAL_DATA].  [today] is [new Date().toISOString().split('T')[0]]
    and [uuid] the value [crypto.randomUUID()] returned when the module
    was loaded. *)
Definition INITIAL_DATA (today uuid : string) : AppData :=
  {| jiraNumber := "";
     jiraName := "";
     type := TMD;
     date := today;
     environment := FRECMCOR;
     conclusion := OK;
     localImage := None;
     steps := [ {| id := uuid; title := "Étape 1"; content := "" |} ] |}.

(** [{ ...prev, steps: s }] *)
Definition with_steps (prev : AppData) (s : list TestStep) : AppData :=
  {| jiraNumber := jiraNumber prev;
     jiraName := jiraName prev;
     type := type prev;
     date := date prev;
     environment := environment prev;
     conclusion := conclusion prev;
     localImage := localImage prev;
     steps := s |}.

(** ** The step handlers of [App] *)

(** [addStep].  [uuid] is what [crypto.randomUUID()] returns in this
    call; the handler does not look at the ids already in use. *)
Definition addStep (uuid : string) (prev : AppData) : AppData :=
  with_steps prev
    (steps prev ++
     [ {| id := uuid;
          title := "Étape " ++ decimal (length (steps prev) + 1);
          content := "" |} ]).

(** [removeStep]: [prev.steps.filter(step => step.id !== id)]. *)
Definition removeStep (i : string) (prev : AppData) : AppData :=
  with_steps prev (filter (fun step => negb (id step =? i)) (steps prev)).

(** [Partial<TestStep>]: each property present or not. *)
Record StepUpdates := mkUpdates {
  u_id : option string;
  u_title : option string;
  u_content : option string
}.

Definition title_update (t : string) : StepUpdates :=
  {| u_id := None; u_title := Some t; u_content := None |}.

Definition content_update (c : string) : StepUpdates :=
  {| u_id := None; u_title := None; u_content := Some c |}.

Definition or_else {A} (o : option A) (d : A) : A :=
  match o with Some a => a | None => d end.

(** [{ ...step, ...updates }] *)
Definition merge_step (step : TestStep) (updates : StepUpdates) : TestStep :=
  {| id := or_else (u_id updates) (id step);
     title := or_else (u_title updates) (title step);
     content := or_else (u_content updates) (content step) |}.

(** [updateStep]:
    [prev.steps.map(step => step.id === id ? { ...step, ...updates } : step)]. *)
Definition updateStep (i : string) (updates : StepUpdates) (prev : AppData)
  : AppData :=
  with_steps prev
    (map (fun step => if id step =? i then merge_step step updates else step)
         (steps prev)).

(** What a call of a store operation can come to, with the errors the
    specification of the store names.  [App.tsx] has no [throw]: the
    step handlers hand an updater to [setData] and return, so their
    outcome is always [Done]. *)
Inductive StoreError := InvalidField | StepNotFound | InvalidDocument.

Inductive Outcome :=
| Done (next : AppData)
| Failed (e : StoreError).

Definition updateStep_outcome (i : string) (updates : StepUpdates)
  (prev : AppData) : Outcome :=
  Done (updateStep i updates prev).

(** The ids in use, in step order. *)
Definition ids (d : AppData) : list string := map id (steps d).

(** The callback [updateStep] maps over the steps. *)
Definition step_update (i : string) (u : StepUpdates) (s : TestStep)
  : TestStep :=
  if id s =? i then merge_step s u else s.

(** ** The field handlers of [App] *)

(** What [e.target] holds when an input wired to [handleInputChange]
    changes: the [name] of the input and its [value].  The two selects
    offer their two options only. *)
Inductive InputChange :=
| change_jiraNumber (value : string)
| change_jiraName (value : string)
| change_type (value : JiraType)
| change_date (value : string)
| change_environment (value : Environment).

(** [handleInputChange]: [{ ...prev, [name]: value }]. *)
Definition handleInputChange (e : InputChange) (prev : AppData) : AppData :=
  match e with
  | change_jiraNumber value =>
      {| jiraNumber := value; jiraName := jiraName prev; type := type prev;
         date := date prev; environment := environment prev;
         conclusion := conclusion prev; localImage := localImage prev;
         steps := steps prev |}
  | change_jiraName value =>
      {| jiraNumber := jiraNumber prev; jiraName := value; type := type prev;
         date := date prev; environment := environment prev;
         conclusion := conclusion prev; localImage := localImage prev;
         steps := steps prev |}
  | change_type value =>
      {| jiraNumber := jiraNumber prev; jiraName := jiraName prev;
         type := value; date := date prev; environment := environment prev;
         conclusion := conclusion prev; localImage := localImage prev;
         steps := steps prev |}
  | change_date value =>
      {| jiraNumber := jiraNumber prev; jiraName := jiraName prev;
         type := type prev; date := value; environment := environment prev;
         conclusion := conclusion prev; localImage := localImage prev;
         steps := steps prev |}
  | change_environment value =>
      {| jiraNumber := jiraNumber prev; jiraName := jiraName prev;
         type := type prev; date := date prev; environment := value;
         conclusion := conclusion prev; localImage := localImage prev;
         steps := steps prev |}
  end.


(** The two conclusion buttons: [{ ...prev, conclusion: c }]. *)
Definition setConclusion (c : Conclusion) (prev : AppData) : AppData :=
  {| jiraNumber := jiraNumber prev; jiraName := jiraName prev;
     type := type prev; date := date prev; environment := environment prev;
     conclusion := c; localImage := localImage prev; steps := steps prev |}.

(** [reader.onloadend] of [handleImageUpload]:
    [{ ...prev, localImage: reader.result }].  [result] is the data URL,
    or [null] when the read failed.  Without a file the handler does
    nothing. *)
Definition handleImageUpload_onloadend (result : option string)
  (prev : AppData) : AppData :=
  {| jiraNumber := jiraNumber prev; jiraName := jiraName prev;
     type := type prev; date := date prev; environment := environment prev;
     conclusion := conclusion prev; localImage := result;
     steps := steps prev |}.

(** ** [RichTextEditor]: one Quill instance bound to one step *)

(** The part of a Quill instance the component reads and writes:
    [root.innerHTML], and the ['text-change'] handlers registered with
    [on].  [innerHTML] is a cell: reading gives what was last assigned;
    what Quill itself does after an assignment is not part of the
    component. *)
Record Quill := mkQuill {
  innerHTML : string;
  text_change_handlers : nat
}.

(** The empty document of a fresh Quill editor, the literal the
    component compares against. *)
Definition quill_empty_html : string := "<p><br></p>".

(** [new Quill(editorRef.current, ...)] followed by
    [on('text-change', ...)]. *)
Definition new_Quill : Quill :=
  {| innerHTML := quill_empty_html; text_change_handlers := 1 |}.

(** The two refs of the component; [editorRef] holds whether the [div]
    is mounted. *)
Record EditorRefs := mkRefs {
  editorRef : bool;
  quillRef : option Quill
}.

(** What an effect leaves: the refs, and the assignments it made to
    [root.innerHTML], in order. *)
Record EffectResult := mkEffect {
  refs_after : EditorRefs;
  writes : list string
}.

Definition set_innerHTML (r : EditorRefs) (q : Quill) (v : string)
  : EditorRefs :=
  {| editorRef := editorRef r;
     quillRef := Some {| innerHTML := v;
                         text_change_handlers := text_change_handlers q |} |}.

(** The handler registered on ['text-change']:
    [onChange(quillRef.current?.root.innerHTML || '')]. *)
Definition text_change_payload (r : EditorRefs) : string :=
  match quillRef r with
  | Some q => innerHTML q
  | None => ""
  end.

(** The first [useEffect] (dependencies [[]]): creates the editor once,
    then compares its buffer with [value]. *)
Definition mount_effect (value : string) (r : EditorRefs) : EffectResult :=
  let r1 :=
    match editorRef r, quillRef r with
    | true, None => {| editorRef := true; quillRef := Some new_Quill |}
    | _, _ => r
    end in
  match quillRef r1 with
  | Some q =>
      if negb (innerHTML q =? value) then
        if value =? "" then
          {| refs_after := set_innerHTML r1 q ""; writes := [""] |}
        else if (innerHTML q =? "<p><br></p>") && (value =? "") then
          (* ignore *)
          {| refs_after := r1; writes := [] |}
        else if negb (innerHTML q =? value) then
          {| refs_after := r1; writes := [] |}
        else {| refs_after := r1; writes := [] |}
      else {| refs_after := r1; writes := [] |}
  | None => {| refs_after := r1; writes := [] |}
  end.

(** The second [useEffect] (dependencies [[value]]), "Handle value
    updates from outside (like Restore)": the inbound overwrite path. *)
Definition value_effect (value : string) (r : EditorRefs) : EffectResult :=
  match quillRef r with
  | Some q =>
      if negb (value =? innerHTML q)
      then {| refs_after := set_innerHTML r q value; writes := [value] |}
      else {| refs_after := r; writes := [] |}
  | None => {| refs_after := r; writes := [] |}
  end.

(** The two effects as React runs them after the first render of the
    component, in the order they are declared. *)
Definition first_render_effects (value : string) (r : EditorRefs)
  : EffectResult :=
  let m := mount_effect value r in
  let v := value_effect value (refs_after m) in
  {| refs_after := refs_after v; writes := (writes m ++ writes v)%list |}.

(** The outbound path: the ['text-change'] handler calls [onChange],
    which [App] binds to [(content) => updateStep(step.id, { content })]. *)
Definition on_text_change (i : string) (r : EditorRefs) (prev : AppData)
  : AppData :=
  updateStep i (content_update (text_change_payload r)) prev.

(** ** The edits a session is made of *)

(** What the form can ask of [data], as [App] wires it: the inputs and
    selects call [handleInputChange], the two buttons set the
    conclusion, the file input sets the image, [Ajouter une étape] calls
    [addStep] (with the id [crypto.randomUUID()] gives), the bin of a
    step calls [removeStep(step.id)], its title input and its editor
    call [updateStep(step.id, ...)]. *)
Inductive Edit :=
| edit_input (e : InputChange)
| edit_conclusion (c : Conclusion)
| edit_image (result : option string)
| edit_addStep (uuid : string)
| edit_removeStep (i : string)
| edit_title (i : string) (value : string)
| edit_content (i : string) (html : string).

Definition apply_edit (e : Edit) (prev : AppData) : AppData :=
  match e with
  | edit_input e => handleInputChange e prev
  | edit_conclusion c => setConclusion c prev
  | edit_image result => handleImageUpload_onloadend result prev
  | edit_addStep uuid => addStep uuid prev
  | edit_removeStep i => removeStep i prev
  | edit_title i value => updateStep i (title_update value) prev
  | edit_content i html => updateStep i (content_update html) prev
  end.

(** The edits of a session, applied in order. *)
Fixpoint apply_edits (es : list Edit) (d : AppData) : AppData :=
  match es with
  | [] => d
  | e :: rest => apply_edits rest (apply_edit e d)
  end.

(** Every id [crypto.randomUUID()] gave was new when it was given. *)
Fixpoint uuids_new (es : list Edit) (d : AppData) : Prop :=
  match es with
  | [] => True
  | e :: rest =>
      match e with
      | edit_addStep uuid => ~ In uuid (ids d)
      | _ => True
      end
      /\ uuids_new rest (apply_edit e d)
  end.

(** ** Print trigger *)

(** Calls a handler makes to its environment. *)
Inductive Call :=
| alert (msg : string)
| window_print
| setTimeout (ms : nat)
| html2pdf_save (filename : string)
| console_error
| throw_SyntaxError.

Record AppState := mkState {
  data : AppData;
  isPreviewOpen : bool;
  copied : bool
}.

(** [!s] on a string. *)
Definition falsy (s : string) : bool := s =? "".

Definition msg_fill_jira : string :=
  "Veuillez remplir au moins le numéro et le nom de la JIRA.".

(** [handlePrint] *)
Definition handlePrint (s : AppState) : AppState * list Call :=
  if falsy (jiraNumber (data s)) || falsy (jiraName (data s))
  then (s, [alert msg_fill_jira])
  else (s, [window_print]).

(** ** Rendering *)

(** [\d] of a regular expression without the [u] flag: an ASCII digit. *)
Definition is_digit (c : ascii) : bool :=
  ((48 <=? N_of_ascii c) && (N_of_ascii c <=? 57))%N.

(** [s.replace(/\D/g, '')]: every character that is not a digit is
    replaced by the empty string. *)
Fixpoint replace_non_digits (s : string) : string :=
  match s with
  | EmptyString => EmptyString
  | String c rest =>
      if is_digit c then String c (replace_non_digits rest)
      else replace_non_digits rest
  end.

(** [const jiraDigits = data.jiraNumber.replace(/\D/g, '')] *)
Definition jiraDigits (d : AppData) : string :=
  replace_non_digits (jiraNumber d).

(** [a || b] on strings. *)
Definition str_or (a b : string) : string :=
  if falsy a then b else a.

(** [sqlQuery], the template literal of the later revision. *)
Definition sqlQuery (d : AppData) : string :=
  "select * from ps_s1_scripts_tbl where s1_script_name like '%"
  ++ str_or (jiraDigits d) "XXXX" ++ "J%';".

(** Rendered markup: the element tree React builds from the JSX.  Props
    are kept as name and value; event handlers are left out. *)
Inductive Node :=
| Text (s : string)
| Element (tag : string) (props : list (string * string))
    (children : list Node).

Definition className (c : string) : string * string := ("className", c).

Definition div (c : string) (children : list Node) : Node :=
  Element "div" [className c] children.

(** [l.map((x, idx) => f x idx)] *)
Fixpoint mapi_from {A B} (f : A -> nat -> B) (i : nat) (l : list A)
  : list B :=
  match l with
  | [] => []
  | x :: rest => f x i :: mapi_from f (S i) rest
  end.

Definition mapi {A B} (f : A -> nat -> B) (l : list A) : list B :=
  mapi_from f 0 l.

Definition heading_class : string :=
  "text-xl font-bold mb-4 border-b-2 border-red-900 text-red-900 pb-2".

(** The text of [div.sql-block] inside [PrintContent]. *)
Definition sql_block (jiraDigits : string) : list Node :=
  [ Text "select * from ps_s1_scripts_tbl where s1_script_name like '%";
    Text (str_or jiraDigits "XXXX");
    Text "J%';" ].

(** One step of [data.steps.map((step, idx) => ...)]. *)
Definition step_block (step : TestStep) (idx : nat) : Node :=
  Element "div"
    [ ("key", id step); className "mb-8";
      ("style", "pageBreakInside: avoid") ]
    [ div "step-title"
        [ Text "Étape "; Text (decimal (idx + 1)); Text " : ";
          Text (title step) ];
      Element "div"
        [ className "ql-editor";
          ("style", "padding: 0; minHeight: auto");
          ("dangerouslySetInnerHTML", content step) ]
        [] ].

(** [{data.localImage && (...)}]: nothing for [null] and for the empty
    string. *)
Definition image_block (d : AppData) : list Node :=
  match localImage d with
  | Some src =>
      if falsy src then []
      else [ div "mb-8"
               [ Element "p" [className "font-semibold mb-2"]
                   [Text "Exécution SQL :"];
                 Element "img"
                   [ ("src", src); ("alt", "Local");
                     className "pdf-image-main" ] [] ] ]
  | None => []
  end.

(** [div.pdf-content]: the content section. *)
Definition pdf_content (d : AppData) (jiraDigits : string) : Node :=
  div "pdf-content"
    ([ Element "h2" [className heading_class] [Text "Détails Techniques"];
       div "mb-8"
         [ Element "p" [className "font-semibold mb-2"]
             [Text "Requête SQL de vérification :"];
           div "sql-block" (sql_block jiraDigits) ] ]
     ++ image_block d
     ++ [ div "mb-8"
            [ Element "h3" [className "text-lg font-bold mb-2"]
                [Text "Environnement de test"];
              Element "p"
                [className
                   "bg-slate-100 p-3 rounded border border-slate-300 inline-block font-mono"]
                [Text (Environment_str (environment d))] ];
          Element "h2"
            [className
               "text-xl font-bold mt-10 mb-4 border-b-2 border-red-900 text-red-900 pb-2"]
            [Text "Déroulement des Tests"] ]
     ++ mapi step_block (steps d)
     ++ [ Element "div"
            [className "mt-12"; ("style", "pageBreakInside: avoid")]
            [ Element "h2" [className heading_class]
                [Text "Conclusion du Test"];
              div (match conclusion d with
                   | OK => "conclusion-ok"
                   | KO => "conclusion-ko"
                   end)
                [ Text "BON POUR PROD ";
                  Text (Conclusion_str (conclusion d)) ] ] ]).

Definition spacer_row : Node :=
  Element "tr" []
    [ Element "td" [] [ Element "div" [("style", "height: 15mm")] [] ] ].

Section Render.

(** [new Date(s).toLocaleDateString('fr-FR')], a service of the host. *)
Variable toLocaleDateString_frFR : string -> string.

(** Page 1 of [PrintContent]: the cover. *)
Definition cover_page (d : AppData) : Node :=
  div "pdf-page"
    [ div "pdf-header-band"
        [ div "pdf-header-left" [Text (str_or (jiraNumber d) "JIRA-XXX")];
          div "pdf-header-right"
            [Text (str_or (jiraName d) "NOM DE LA JIRA")] ];
      div "pdf-sub-header"
        [ Text "["; Text (JiraType_str (type d)); Text "] - [";
          Text (toLocaleDateString_frFR (date d)); Text "]" ];
      Element "div"
        [ className "flex flex-col items-center justify-center";
          ("style", "height: 200mm") ]
        [ Element "img"
            [ ("src", "/icon.png"); ("alt", "Logo Cahier de Tests");
              className "w-[576px] h-[576px] object-contain" ] [];
          Element "p"
            [className
               "mt-8 text-2xl font-bold text-slate-400 uppercase tracking-widest"]
            [Text "Cahier de Recette"] ] ].

(** [PrintContent({ data, jiraDigits })]: a fragment of two nodes. *)
Definition PrintContent (d : AppData) (jiraDigits : string) : list Node :=
  [ cover_page d;
    Element "table" [className "w-full"]
      [ Element "thead" [] [spacer_row];
        Element "tbody" []
          [ Element "tr" []
              [ Element "td" [] [pdf_content d jiraDigits] ] ];
        Element "tfoot" [] [spacer_row] ] ].

Definition pdf_footer_fixed (d : AppData) : Node :=
  div "pdf-footer-fixed"
    [ Element "div" []
        [Text (jiraNumber d); Text " / "; Text (jiraName d)];
      Element "div" [] [Text "Cahier de recette"] ].

(** The body of the preview modal, rendered while [isPreviewOpen]. *)
Definition preview_pane (d : AppData) : Node :=
  div "flex-1 overflow-y-auto p-8 bg-slate-200/50"
    [ div "print-container shadow-2xl relative"
        (PrintContent d (jiraDigits d) ++ [pdf_footer_fixed d]) ].

Definition preview_modal (s : AppState) : list Node :=
  if isPreviewOpen s then [preview_pane (data s)] else [].

(** The hidden print template, the only part shown to [window.print()]. *)
Definition print_template (d : AppData) : Node :=
  div "hidden print:block"
    [ Element "div"
        [("ref", "printTemplateRef"); className "print-container relative"]
        (PrintContent d (jiraDigits d) ++ [pdf_footer_fixed d]) ].

End Render.

(** Reading a rendered tree back. *)

Fixpoint prop_of (name : string) (props : list (string * string))
  : option string :=
  match props with
  | [] => None
  | (n, v) :: rest => if n =? name then Some v else prop_of name rest
  end.

Definition has_class (c : string) (n : Node) : bool :=
  match n with
  | Element _ props _ =>
      match prop_of "className" props with
      | Some c' => c' =? c
      | None => false
      end
  | Text _ => false
  end.

Definition children_of (n : Node) : list Node :=
  match n with
  | Element _ _ children => children
  | Text _ => []
  end.

(** The first element, in document order, whose class is [c]. *)
Fixpoint find_class (c : string) (n : Node) {struct n} : option Node :=
  if has_class c n then Some n
  else
    match n with
    | Element _ _ children =>
        (fix first (l : list Node) : option Node :=
           match l with
           | [] => None
           | x :: rest =>
               match find_class c x with
               | Some y => Some y
               | None => first rest
               end
           end) children
    | Text _ => None
    end.

(** The same search through a list of siblings. *)
Fixpoint find_first (c : string) (l : list Node) : option Node :=
  match l with
  | [] => None
  | x :: rest =>
      match find_class c x with
      | Some y => Some y
      | None => find_first c rest
      end
  end.

(** How many elements of a subtree have class [c]. *)
Fixpoint count_class (c : string) (n : Node) {struct n} : nat :=
  (if has_class c n then 1 else 0)
  + match n with
    | Element _ _ children =>
        (fix total (l : list Node) : nat :=
           match l with
           | [] => 0
           | x :: rest => count_class c x + total rest
           end) children
    | Text _ => 0
    end.

(** The same count through a list of siblings. *)
Fixpoint count_all (c : string) (l : list Node) : nat :=
  match l with
  | [] => 0
  | x :: rest => count_class c x + count_all c rest
  end.

(** The elements React keys: in [PrintContent], the step blocks. *)
Definition is_step_block (n : Node) : bool :=
  match n with
  | Element _ props _ =>
      match prop_of "key" props with Some _ => true | None => false end
  | Text _ => false
  end.

(** The text a subtree shows: its text nodes, in order. *)
Fixpoint text_of (n : Node) : string :=
  match n with
  | Text s => s
  | Element _ _ children =>
      (fix all (l : list Node) : string :=
         match l with
         | [] => EmptyString
         | x :: rest => text_of x ++ all rest
         end) children
  end.

(** The SQL snippet as the content section shows it: the text of
    [div.sql-block] inside [div.pdf-content]. *)
Definition rendered_sql (d : AppData) : option string :=
  option_map text_of (find_class "sql-block" (pdf_content d (jiraDigits d))).

(** The print container of a rendered pane: its class and what it
    holds. *)
Definition print_container (pane : Node) : option (string * list Node) :=
  match children_of pane with
  | [Element _ props children] =>
      match prop_of "className" props with
      | Some c => Some (c, children)
      | None => None
      end
  | _ => None
  end.

(** ** JSON: the values, [JSON.stringify(_, null, 2)] and [JSON.parse]

    The two built-ins follow ECMA-262 (SerializeJSONProperty,
    QuoteJSONString, and the JSON grammar of ECMA-404).  A number is kept
    as the literal that denotes it: [AppData] has no numeric field, and
    no handler computes with one.  The property list of an object is in
    enumeration order; names that are array indices, which JavaScript
    enumerates first, do not occur in [AppData].  A lone surrogate,
    which [JSON.stringify] writes as a [\u] escape, has no UTF-8 form
    and so no place in a string of this embedding. *)

Module Json.

Inductive value :=
| JNull
| JBool (b : bool)
| JNumber (literal : string)
| JString (s : string)
| JArray (elements : list value)
| JObject (properties : list (string * value)).

(** *** QuoteJSONString *)

Definition hex_digit (n : N) : ascii :=
  ascii_of_N (if n <? 10 then 48 + n else 87 + n)%N.

Definition quote_char (c : ascii) : string :=
  if Ascii.eqb c "008" then "\b"
  else if Ascii.eqb c "009" then "\t"
  else if Ascii.eqb c "010" then "\n"
  else if Ascii.eqb c "012" then "\f"
  else if Ascii.eqb c "013" then "\r"
  else if Ascii.eqb c dquote then String backslash (String dquote "")
  else if Ascii.eqb c backslash then "\\"
  else if (N_of_ascii c <? 32)%N then
    "\u00" ++ String (hex_digit (N_of_ascii c / 16))
                (String (hex_digit (N_of_ascii c mod 16)) "")
  else String c "".

Fixpoint quote_chars (s : string) : string :=
  match s with
  | EmptyString => EmptyString
  | String c rest => quote_char c ++ quote_chars rest
  end.

Definition QuoteJSONString (s : string) : string :=
  String dquote (quote_chars s ++ String dquote "").

(** *** SerializeJSONProperty with [gap] of two spaces *)

Definition gap : string := "  ".

Fixpoint SerializeJSONProperty (indent : string) (v : value) : string :=
  match v with
  | JNull => "null"
  | JBool b => if b then "true" else "false"
  | JNumber literal => literal
  | JString s => QuoteJSONString s
  | JArray elements =>
      match elements with
      | [] => "[]"
      | _ =>
          "[" ++ nl ++ (indent ++ gap)
          ++ String.concat ("," ++ nl ++ (indent ++ gap))
               (map (SerializeJSONProperty (indent ++ gap)) elements)
          ++ nl ++ indent ++ "]"
      end
  | JObject properties =>
      match properties with
      | [] => "{}"
      | _ =>
          "{" ++ nl ++ (indent ++ gap)
          ++ String.concat ("," ++ nl ++ (indent ++ gap))
               (map (fun kv : string * value =>
                       let (k, x) := kv in
                       QuoteJSONString k ++ ": "
                       ++ SerializeJSONProperty (indent ++ gap) x)
                    properties)
          ++ nl ++ indent ++ "}"
      end
  end.

(** [JSON.stringify(v, null, 2)] *)
Definition stringify (v : value) : string := SerializeJSONProperty "" v.

(** *** JSON.parse *)

Inductive Parsed (A : Type) :=
| Ok (a : A) (rest : string)
| SyntaxError
| OutOfFuel.

Arguments Ok {A} a rest.
Arguments SyntaxError {A}.
Arguments OutOfFuel {A}.

Definition bind {A B} (p : Parsed A) (k : A -> string -> Parsed B)
  : Parsed B :=
  match p with
  | Ok a rest => k a rest
  | SyntaxError => SyntaxError
  | OutOfFuel => OutOfFuel
  end.

Definition is_ws (c : ascii) : bool :=
  Ascii.eqb c " " || Ascii.eqb c "009" || Ascii.eqb c "010"
  || Ascii.eqb c "013".

Fixpoint skip_ws (s : string) : string :=
  match s with
  | String c rest => if is_ws c then skip_ws rest else s
  | EmptyString => s
  end.

Definition hex_value (c : ascii) : option N :=
  let n := N_of_ascii c in
  (if (48 <=? n) && (n <=? 57) then Some (n - 48)
   else if (97 <=? n) && (n <=? 102) then Some (n - 87)
   else if (65 <=? n) && (n <=? 70) then Some (n - 55)
   else None)%N.

Definition hex4 (a b c d : ascii) : option N :=
  match hex_value a, hex_value b, hex_value c, hex_value d with
  | Some x, Some y, Some z, Some w => Some (((x * 16 + y) * 16 + z) * 16 + w)%N
  | _, _, _, _ => None
  end.

Definition byte (n : N) : string := String (ascii_of_N n) "".

(** The UTF-8 bytes of a code point; a lone surrogate is written in the
    same three-byte form. *)
Definition utf8 (cp : N) : string :=
  (if cp <? 128 then byte cp
   else if cp <? 2048 then byte (192 + cp / 64) ++ byte (128 + cp mod 64)
   else if cp <? 65536 then
     byte (224 + cp / 4096) ++ byte (128 + (cp / 64) mod 64)
     ++ byte (128 + cp mod 64)
   else
     byte (240 + cp / 262144) ++ byte (128 + (cp / 4096) mod 64)
     ++ byte (128 + (cp / 64) mod 64) ++ byte (128 + cp mod 64))%N.

Definition is_high_surrogate (n : N) : bool :=
  ((55296 <=? n) && (n <=? 56319))%N.

Definition is_low_surrogate (n : N) : bool :=
  ((56320 <=? n) && (n <=? 57343))%N.

Definition surrogate_pair (hi lo : N) : N :=
  (65536 + (hi - 55296) * 1024 + (lo - 56320))%N.

Definition flush (hi : option N) : string :=
  match hi with
  | Some h => utf8 h
  | None => EmptyString
  end.

Definition simple_escape (e : ascii) : option ascii :=
  if Ascii.eqb e dquote then Some dquote
  else if Ascii.eqb e backslash then Some backslash
  else if Ascii.eqb e "/" then Some "/"%char
  else if Ascii.eqb e "b" then Some "008"%char
  else if Ascii.eqb e "f" then Some "012"%char
  else if Ascii.eqb e "n" then Some "010"%char
  else if Ascii.eqb e "r" then Some "013"%char
  else if Ascii.eqb e "t" then Some "009"%char
  else None.

Definition prepend (p : string) (r : Parsed string) : Parsed string :=
  bind r (fun a rest => Ok (p ++ a) rest).

(** The characters of a string literal after its opening quote, up to
    and including the closing quote.  [hi] is a high surrogate read from
    a [\u] escape and still waiting for its low half. *)
Fixpoint parse_chars (hi : option N) (s : string) : Parsed string :=
  match s with
  | EmptyString => SyntaxError
  | String c r =>
      if Ascii.eqb c dquote then Ok (flush hi) r
      else if Ascii.eqb c backslash then
        match r with
        | String e r1 =>
            if Ascii.eqb e "u" then
              match r1 with
              | String h1 (String h2 (String h3 (String h4 r2))) =>
                  match hex4 h1 h2 h3 h4 with
                  | Some n =>
                      if is_high_surrogate n then
                        prepend (flush hi) (parse_chars (Some n) r2)
                      else if is_low_surrogate n then
                        match hi with
                        | Some h =>
                            prepend (utf8 (surrogate_pair h n))
                              (parse_chars None r2)
                        | None => prepend (utf8 n) (parse_chars None r2)
                        end
                      else prepend (flush hi ++ utf8 n) (parse_chars None r2)
                  | None => SyntaxError
                  end
              | _ => SyntaxError
              end
            else
              match simple_escape e with
              | Some d =>
                  prepend (flush hi ++ String d "") (parse_chars None r1)
              | None => SyntaxError
              end
        | EmptyString => SyntaxError
        end
      else if (N_of_ascii c <? 32)%N then SyntaxError
      else prepend (flush hi ++ String c "") (parse_chars None r)
  end.

Fixpoint span_digits (s : string) : string * string :=
  match s with
  | String c rest =>
      if is_digit c then
        let (ds, r) := span_digits rest in (String c ds, r)
      else (EmptyString, s)
  | EmptyString => (EmptyString, s)
  end.

(** [-? int frac? exp?]; the result is the literal itself. *)
Definition parse_number (s : string) : Parsed string :=
  let (sign, s1) :=
    match s with
    | String c r => if Ascii.eqb c "-" then ("-", r) else ("", s)
    | EmptyString => ("", s)
    end in
  let int :=
    match s1 with
    | String c r =>
        if Ascii.eqb c "0" then Ok "0" r
        else if is_digit c then
          let (ds, r') := span_digits r in Ok (String c ds) r'
        else SyntaxError
    | EmptyString => SyntaxError
    end in
  bind int (fun i s2 =>
  let frac :=
    match s2 with
    | String c r =>
        if Ascii.eqb c "." then
          let (ds, r') := span_digits r in
          if ds =? "" then SyntaxError else Ok ("." ++ ds) r'
        else Ok "" s2
    | EmptyString => Ok "" s2
    end in
  bind frac (fun f s3 =>
  let exp :=
    match s3 with
    | String c r =>
        if Ascii.eqb c "e" || Ascii.eqb c "E" then
          let (sg, r1) :=
            match r with
            | String d r0 =>
                if Ascii.eqb d "+" || Ascii.eqb d "-"
                then (String d "", r0) else ("", r)
            | EmptyString => ("", r)
            end in
          let (ds, r') := span_digits r1 in
          if ds =? "" then SyntaxError else Ok (String c sg ++ ds) r'
        else Ok "" s3
    | EmptyString => Ok "" s3
    end in
  bind exp (fun e s4 => Ok (sign ++ i ++ f ++ e) s4))).

Fixpoint strip_prefix (p s : string) : option string :=
  match p with
  | EmptyString => Some s
  | String a p' =>
      match s with
      | String b s' => if Ascii.eqb a b then strip_prefix p' s' else None
      | EmptyString => None
      end
  end.

Definition literal (word : string) (v : value) (s : string) : Parsed value :=
  match strip_prefix word s with
  | Some rest => Ok v rest
  | None => SyntaxError
  end.

(** Defining a property on the object under construction: a name seen
    before keeps its place and takes the new value. *)
Fixpoint define_property (o : list (string * value)) (k : string)
  (v : value) : list (string * value) :=
  match o with
  | [] => [(k, v)]
  | (k', v') :: rest =>
      if k' =? k then (k, v) :: rest
      else (k', v') :: define_property rest k v
  end.

Definition object_of (members : list (string * value)) : value :=
  JObject (fold_left (fun o kv => define_property o (fst kv) (snd kv))
             members []).

(** The recursive descent.  Every call spends one unit of [fuel]; a
    text of [n] characters needs at most [2 * n + 1]. *)
Fixpoint parse_value (fuel : nat) (s : string) {struct fuel}
  : Parsed value :=
  match fuel with
  | O => OutOfFuel
  | S f =>
      match skip_ws s with
      | EmptyString => SyntaxError
      | String c r =>
          if Ascii.eqb c "{" then
            match skip_ws r with
            | String c' r' =>
                if Ascii.eqb c' "}" then Ok (JObject []) r'
                else bind (parse_members f r)
                       (fun m rest => Ok (object_of m) rest)
            | EmptyString => SyntaxError
            end
          else if Ascii.eqb c "[" then
            match skip_ws r with
            | String c' r' =>
                if Ascii.eqb c' "]" then Ok (JArray []) r'
                else bind (parse_elements f r)
                       (fun l rest => Ok (JArray l) rest)
            | EmptyString => SyntaxError
            end
          else if Ascii.eqb c dquote then
            bind (parse_chars None r) (fun x rest => Ok (JString x) rest)
          else if Ascii.eqb c "t" then literal "true" (JBool true) (String c r)
          else if Ascii.eqb c "f" then
            literal "false" (JBool false) (String c r)
          else if Ascii.eqb c "n" then literal "null" JNull (String c r)
          else
            bind (parse_number (String c r))
              (fun x rest => Ok (JNumber x) rest)
      end
  end

with parse_elements (fuel : nat) (s : string) {struct fuel}
  : Parsed (list value) :=
  match fuel with
  | O => OutOfFuel
  | S f =>
      bind (parse_value f s) (fun v r =>
      match skip_ws r with
      | String c r' =>
          if Ascii.eqb c "," then
            bind (parse_elements f r') (fun l rest => Ok (v :: l) rest)
          else if Ascii.eqb c "]" then Ok [v] r'
          else SyntaxError
      | EmptyString => SyntaxError
      end)
  end

with parse_members (fuel : nat) (s : string) {struct fuel}
  : Parsed (list (string * value)) :=
  match fuel with
  | O => OutOfFuel
  | S f =>
      match skip_ws s with
      | String q r =>
          if Ascii.eqb q dquote then
            bind (parse_chars None r) (fun k r1 =>
            match skip_ws r1 with
            | String c r2 =>
                if Ascii.eqb c ":" then
                  bind (parse_value f r2) (fun v r3 =>
                  match skip_ws r3 with
                  | String d r4 =>
                      if Ascii.eqb d "," then
                        bind (parse_members f r4)
                          (fun m rest => Ok ((k, v) :: m) rest)
                      else if Ascii.eqb d "}" then Ok [(k, v)] r4
                      else SyntaxError
                  | EmptyString => SyntaxError
                  end)
                else SyntaxError
            | EmptyString => SyntaxError
            end)
          else SyntaxError
      | EmptyString => SyntaxError
      end
  end.

(** [JSON.parse(text)]: one value, then nothing but white space.
    [None] stands for the [SyntaxError] it throws. *)
Definition parse (text : string) : option value :=
  match parse_value (2 * String.length text + 1) text with
  | Ok v rest => if skip_ws rest =? "" then Some v else None
  | SyntaxError => None
  | OutOfFuel => None
  end.

(** *** SerializeJSONProperty with an empty [gap] *)

(** [JSON.stringify(v)]: no line breaks, no space after the colon. *)
Fixpoint SerializeCompact (v : value) : string :=
  match v with
  | JNull => "null"
  | JBool b => if b then "true" else "false"
  | JNumber literal => literal
  | JString s => QuoteJSONString s
  | JArray elements =>
      "[" ++ String.concat "," (map SerializeCompact elements) ++ "]"
  | JObject properties =>
      "{"
      ++ String.concat ","
           (map (fun kv : string * value =>
                   let (k, x) := kv in
                   QuoteJSONString k ++ ":" ++ SerializeCompact x)
                properties)
      ++ "}"
  end.

(** One member of an object in the compact form. *)
Definition member_compact (kv : string * value) : string :=
  let (k, x) := kv in QuoteJSONString k ++ ":" ++ SerializeCompact x.

(** *** Notions the facts about the parser are stated with *)

(** White space only. *)
Fixpoint blank (s : string) : bool :=
  match s with
  | EmptyString => true
  | String c rest => is_ws c && blank rest
  end.

(** [below p p']: [p'] is [p], or [p] ran out of fuel. *)
Definition below {A} (p p' : Parsed A) : Prop := p = OutOfFuel \/ p = p'.

(** [consumes n p]: [p] did not run out of fuel, and what it left is
    shorter than [n]. *)
Definition consumes {A} (n : nat) (p : Parsed A) : Prop :=
  match p with
  | Ok _ rest => String.length rest < n
  | SyntaxError => True
  | OutOfFuel => False
  end.

(** The calls the descent makes on the text of a value. *)
Fixpoint size (v : value) : nat :=
  match v with
  | JArray l => S (list_sum (map (fun x => S (size x)) l))
  | JObject m => S (list_sum (map (fun kv => S (size (snd kv))) m))
  | _ => 1
  end.

Fixpoint distinct (l : list string) : bool :=
  match l with
  | [] => true
  | k :: rest => negb (existsb (String.eqb k) rest) && distinct rest
  end.

(** Values without numbers whose objects name each property once: the
    values [AppData] is made of. *)
Fixpoint plain (v : value) : bool :=
  match v with
  | JNumber _ => false
  | JArray l => forallb plain l
  | JObject m => forallb (fun kv => plain (snd kv)) m && distinct (map fst m)
  | _ => true
  end.

(** One line of an object: the function [SerializeJSONProperty] maps
    over the properties. *)
Definition member_text (indent : string) (kv : string * value) : string :=
  let (k, x) := kv in
  QuoteJSONString k ++ ": " ++ SerializeJSONProperty indent x.

End Json.

(** ** Save and restore *)

(** The JavaScript object behind a [TestStep], properties in the order
    the object literal of [addStep] lists them; spreading keeps it. *)
Definition TestStep_value (s : TestStep) : Json.value :=
  Json.JObject
    [ ("id", Json.JString (id s));
      ("title", Json.JString (title s));
      ("content", Json.JString (content s)) ].

(** The JavaScript object behind an [AppData], as [INITIAL_DATA] lays it
    out. *)
Definition AppData_value (d : AppData) : Json.value :=
  Json.JObject
    [ ("jiraNumber", Json.JString (jiraNumber d));
      ("jiraName", Json.JString (jiraName d));
      ("type", Json.JString (JiraType_str (type d)));
      ("date", Json.JString (date d));
      ("environment", Json.JString (Environment_str (environment d)));
      ("conclusion", Json.JString (Conclusion_str (conclusion d)));
      ("localImage",
       match localImage d with
       | Some src => Json.JString src
       | None => Json.JNull
       end);
      ("steps", Json.JArray (map TestStep_value (steps d))) ].

(** [downloadJSON]: the text put in the [Blob], and the name of the
    download. *)
Definition downloadJSON_text (d : AppData) : string :=
  Json.stringify (AppData_value d).

Definition downloadJSON_filename (d : AppData) : string :=
  "cahier-recette-" ++ str_or (jiraNumber d) "export" ++ ".json".

(** [json && typeof json === 'object']: [typeof] says ['object'] of
    [null], of arrays and of objects, and [null] is falsy. *)
Definition truthy_object (json : Json.value) : bool :=
  match json with
  | Json.JArray _ | Json.JObject _ => true
  | _ => false
  end.

Definition msg_restored : string := "Données restaurées avec succès !".

Definition msg_bad_file : string :=
  "Erreur lors de la lecture du fichier de sauvegarde. Assurez-vous qu'il s'agit d'un fichier JSON valide.".

(** [reader.onload] of [handleFileUpload].  [prev] is the value React
    holds in [data]; at run time it is whatever [setData] was last
    given. *)
Definition handleFileUpload_onload (text : string) (prev : Json.value)
  : Json.value * list Call :=
  match Json.parse text with
  | Some json =>
      if truthy_object json then (json, [alert msg_restored])
      else (prev, [])
  | None => (prev, [alert msg_bad_file])
  end.

(** Reading a run-time value at the declared type of the state,
    [useState<AppData>]. *)
Fixpoint get (k : string) (o : list (string * Json.value))
  : option Json.value :=
  match o with
  | [] => None
  | (k', v) :: rest => if k' =? k then Some v else get k rest
  end.

Definition get_string (k : string) (o : list (string * Json.value))
  : option string :=
  match get k o with
  | Some (Json.JString s) => Some s
  | _ => None
  end.

Definition option_bind {A B} (o : option A) (f : A -> option B) : option B :=
  match o with Some a => f a | None => None end.

Definition JiraType_of (s : string) : option JiraType :=
  if s =? "TMD" then Some TMD else if s =? "TMA" then Some TMA else None.

Definition Environment_of (s : string) : option Environment :=
  if s =? "FRECMCOR" then Some FRECMCOR
  else if s =? "FPOST" then Some FPOST else None.

Definition Conclusion_of (s : string) : option Conclusion :=
  if s =? "OK" then Some OK else if s =? "KO" then Some KO else None.

Definition TestStep_of_value (v : Json.value) : option TestStep :=
  match v with
  | Json.JObject o =>
      option_bind (get_string "id" o) (fun i =>
      option_bind (get_string "title" o) (fun t =>
      option_bind (get_string "content" o) (fun c =>
      Some {| id := i; title := t; content := c |})))
  | _ => None
  end.

Fixpoint all_some {A} (l : list (option A)) : option (list A) :=
  match l with
  | [] => Some []
  | x :: rest =>
      option_bind x (fun a =>
      option_bind (all_some rest) (fun r => Some (a :: r)))
  end.

Definition AppData_of_value (v : Json.value) : option AppData :=
  match v with
  | Json.JObject o =>
      option_bind (get_string "jiraNumber" o) (fun num =>
      option_bind (get_string "jiraName" o) (fun name =>
      option_bind (option_bind (get_string "type" o) JiraType_of) (fun ty =>
      option_bind (get_string "date" o) (fun dt =>
      option_bind (option_bind (get_string "environment" o) Environment_of)
        (fun env =>
      option_bind (option_bind (get_string "conclusion" o) Conclusion_of)
        (fun concl =>
      option_bind
        (match get "localImage" o with
         | Some (Json.JString src) => Some (Some src)
         | Some Json.JNull => Some None
         | _ => None
         end) (fun img =>
      option_bind
        (match get "steps" o with
         | Some (Json.JArray l) => all_some (map TestStep_of_value l)
         | _ => None
         end) (fun st =>
      Some {| jiraNumber := num; jiraName := name; type := ty; date := dt;
              environment := env; conclusion := concl; localImage := img;
              steps := st |}))))))))
  | _ => None
  end.

(** The first reads the next render of [App] makes of [data], whatever
    it holds: [data.jiraNumber.replace(/\D/g, '')], and
    [data.steps.map(...)].  [None] stands for the [TypeError] thrown
    when [replace] is not there to call (the property is missing, or is
    not a string) or [map] is not (the property is missing, or is not
    an array). *)
Definition render_jiraDigits (data : Json.value) : option string :=
  match data with
  | Json.JObject o =>
      match get "jiraNumber" o with
      | Some (Json.JString s) => Some (replace_non_digits s)
      | _ => None
      end
  | _ => None
  end.

Definition render_steps (data : Json.value) : option (list Json.value) :=
  match data with
  | Json.JObject o =>
      match get "steps" o with
      | Some (Json.JArray l) => Some l
      | _ => None
      end
  | _ => None
  end.

(** ** The earlier revision: PDF export and local storage *)

Module Legacy.

Record AppState := mkState {
  data : AppData;
  isGenerating : bool
}.

(** The text of [div.sql-block] in the hidden PDF template. *)
Definition sql_block (jiraDigits : string) : list Node :=
  [ Text "select * from psoprdzfn where oprid='";
    Text (str_or jiraDigits "XXXX");
    Text "';" ].

(** [generatePDF], up to the point where it returns; the export itself
    runs from the timer, in [generatePDF_timer]. *)
Definition generatePDF (s : AppState) : AppState * list Call :=
  if falsy (jiraNumber (data s)) || falsy (jiraName (data s))
  then (s, [alert msg_fill_jira])
  else ({| data := data s; isGenerating := true |}, [setTimeout 500]).

(** The callback given to [setTimeout]; [saved] tells whether
    [html2pdf().set(opt).from(element).save()] resolved. *)
Definition generatePDF_timer (saved : bool) (s : AppState)
  : AppState * list Call :=
  let filename := "Cahier_Tests_" ++ jiraNumber (data s) ++ ".pdf" in
  ({| data := data s; isGenerating := false |},
   if saved then [html2pdf_save filename]
   else [html2pdf_save filename; console_error;
         alert "Erreur lors de la génération du PDF."]).

Definition msg_restored : string := "Données restaurées !".

Definition msg_nothing_saved : string := "Aucune sauvegarde trouvée.".

(** [restoreFromLocalStorage].  [saved] is what
    [localStorage.getItem] returns; the handler has no [try], so the
    [SyntaxError] of [JSON.parse] leaves it before [setData]. *)
Definition restoreFromLocalStorage (saved : option string)
  (prev : Json.value) : Json.value * list Call :=
  match saved with
  | Some text =>
      if falsy text then (prev, [alert msg_nothing_saved])
      else
        match Json.parse text with
        | Some json => (json, [alert msg_restored])
        | None => (prev, [throw_SyntaxError])
        end
  | None => (prev, [alert msg_nothing_saved])
  end.

(** [localStorage]: what [getItem] answers for each key. *)
Definition Storage := string -> option string.

Definition getItem (st : Storage) (key : string) : option string := st key.

Definition setItem (st : Storage) (key value : string) : Storage :=
  fun k => if k =? key then Some value else st k.

Definition storage_key : string := "erp_test_notebook_data".

(** [saveToLocalStorage]:
    [localStorage.setItem('erp_test_notebook_data', JSON.stringify(data))]. *)
Definition saveToLocalStorage (d : AppData) (st : Storage)
  : Storage * list Call :=
  (setItem st storage_key (Json.SerializeCompact (AppData_value d)),
   [alert "Données sauvegardées localement !"]).

(** The [Restaurer] button, reading the same key. *)
Definition restore_click (st : Storage) (prev : Json.value)
  : Json.value * list Call :=
  restoreFromLocalStorage (getItem st storage_key) prev.

End Legacy.

(** * Properties *)

(** ** The step handlers *)

Section StepHandlers.

Implicit Types (d : AppData) (s : TestStep) (i : string).

Lemma with_steps_same d : with_steps d (steps d) = d.
Proof. now destruct d. Qed.


Lemma filter_all {A} (f : A -> bool) (l : list A) :
  (forall x, In x l -> f x = true) -> filter f l = l.
Proof.
  induction l as [|a l IH]; intros H; simpl; [reflexivity|].
  rewrite (H a (or_introl eq_refl)), IH; [reflexivity|].
  intros x Hx. apply H. now right.
Qed.

Lemma id_differs s i l :
  In s l -> ~ In i (map id l) -> negb (id s =? i) = true.
Proof.
  intros Hs Hi. apply negb_true_iff, String.eqb_neq. intros E. apply Hi.
  rewrite <- E. now apply in_map.
Qed.

Lemma filter_absent i l :
  ~ In i (map id l) -> filter (fun s => negb (id s =? i)) l = l.
Proof.
  intros Hi. apply filter_all. intros s Hs. now apply (id_differs s i l).
Qed.

Lemma map_absent i (f : TestStep -> TestStep) l :
  ~ In i (map id l) ->
  map (fun s => if id s =? i then f s else s) l = l.
Proof.
  induction l as [|a l IH]; intros Hi; simpl; [reflexivity|].
  simpl in Hi. destruct (String.eqb_spec (id a) i) as [E|_].
  - exfalso. apply Hi. now left.
  - rewrite IH; [reflexivity|]. intros H. apply Hi. now right.
Qed.

Lemma NoDup_snoc {A} (l : list A) (x : A) :
  NoDup l -> ~ In x l -> NoDup (l ++ [x]).
Proof.
  induction l as [|a l IH]; intros Hn Hx; simpl.
  - constructor; [intros []|constructor].
  - inversion Hn as [|? ? Ha Hl]; subst. constructor.
    + rewrite in_app_iff. intros [H|[H|[]]]; [now apply Ha|].
      apply Hx. now left.
    + apply IH; [assumption|]. intros H. apply Hx. now right.
Qed.

Lemma ids_addStep d u : ids (addStep u d) = (ids d ++ [u])%list.
Proof. unfold ids, addStep. simpl. now rewrite map_app. Qed.




(** C7.  [removeStep] with an id no step has returns the document it was
    given.  With the id of a step that is the only one to have it, the
    steps that come back are the ones before it followed by the ones
    after it.  In every case the steps that come back are exactly the
    steps of the document whose id differs, each with the title and
    content it had. *)
Theorem removeStep_removes_only_that_step d i :
  (~ In i (ids d) -> removeStep i d = d)
  /\ (forall before s after,
        steps d = (before ++ s :: after)%list -> id s = i ->
        ~ In i (map id before) -> ~ In i (map id after) ->
        removeStep i d = with_steps d (before ++ after))
  /\ (forall s, In s (steps (removeStep i d)) <-> In s (steps d) /\ id s <> i)
  /\ (forall s, In s (steps d) -> id s <> i ->
        exists s', In s' (steps (removeStep i d))
                   /\ id s' = id s /\ title s' = title s
                   /\ content s' = content s).
Proof.
  assert (Hin : forall s,
             In s (steps (removeStep i d)) <-> In s (steps d) /\ id s <> i).
  { intros s. unfold removeStep. simpl. rewrite filter_In.
    now rewrite negb_true_iff, String.eqb_neq. }
  split; [|split; [|split]].
  - intros Hi. unfold removeStep. rewrite filter_absent by exact Hi.
    apply with_steps_same.
  - intros before s after E Hs Hb Ha. unfold removeStep. f_equal.
    rewrite E, filter_app. simpl.
    rewrite Hs, String.eqb_refl. simpl.
    now rewrite !filter_absent.
  - exact Hin.
  - intros s Hs Hi. exists s. split; [|now repeat split].
    apply Hin. now split.
Qed.

Lemma removeStep_removes_only_that_step_witness :
  let a := {| id := "a"; title := "Connexion"; content := "<p>x</p>" |} in
  let b := {| id := "b"; title := "Étape 2"; content := "" |} in
  let c := {| id := "c"; title := "Étape 3"; content := "" |} in
  let d := with_steps (INITIAL_DATA "2024-05-17" "a") [a; b; c] in
  removeStep "z" d = d /\ removeStep "b" d = with_steps d [a; c].
Proof.
  intros a b c d. split.
  - apply (proj1 (removeStep_removes_only_that_step d "z")).
    simpl. intros [H|[H|[H|[]]]]; discriminate H.
  - apply (proj1 (proj2 (removeStep_removes_only_that_step d "b"))
             [a] b [c]).
    + reflexivity.
    + reflexivity.
    + simpl. intros [H|[]]. discriminate H.
    + simpl. intros [H|[]]. discriminate H.
Defined.

(** C3, as the code has it.  [updateStep] with an id no step has
    completes and returns the document it was given: nothing is
    reported, and in particular no [StepNotFound]. *)
Theorem updateStep_absent_id_unchanged d i (updates : StepUpdates) :
  ~ In i (ids d) ->
  updateStep i updates d = d
  /\ updateStep_outcome i updates d = Done d.
Proof.
  intros Hi.
  assert (E : updateStep i updates d = d).
  { unfold updateStep. rewrite map_absent by exact Hi.
    apply with_steps_same. }
  split; [exact E|]. unfold updateStep_outcome. now rewrite E.
Qed.

Lemma updateStep_absent_id_unchanged_witness :
  let d := INITIAL_DATA "2024-05-17" "a" in
  updateStep "b" (title_update "Connexion") d = d.
Proof.
  intros d.
  refine (proj1 (updateStep_absent_id_unchanged d "b" _ _)).
  simpl. intros [H|[]]. discriminate H.
Defined.

(** C3, as the claim has it, fails: on the initial document, whose only
    step has id ["a"], [updateStep "b"] does not fail with
    [StepNotFound]; it succeeds. *)
Lemma updateStep_absent_id_is_not_an_error :
  let d := INITIAL_DATA "2024-05-17" "a" in
  ~ In "b" (ids d)
  /\ updateStep_outcome "b" (title_update "Connexion") d = Done d
  /\ updateStep_outcome "b" (title_update "Connexion") d
     <> Failed StepNotFound.
Proof.
  intros d. split; [|split].
  - simpl. intros [H|[]]. discriminate H.
  - reflexivity.
  - discriminate.
Qed.

End StepHandlers.

(** ** The editor binding *)

Section EditorBinding.

Implicit Types (r : EditorRefs) (q : Quill).

Lemma value_effect_same r q :
  quillRef r = Some q ->
  value_effect (innerHTML q) r = {| refs_after := r; writes := [] |}.
Proof.
  intros Hq. unfold value_effect. rewrite Hq.
  now rewrite String.eqb_refl.
Qed.

(** C9.  The inbound path writes only on inequality: when the buffer of
    the bound editor already holds [C], [value_effect C] assigns nothing
    and leaves the refs as they are; so running it a second time with
    the same [C], whatever the buffer was before the first run, assigns
    nothing either. *)
Theorem value_effect_idempotent (C : string) r :
  (forall q, quillRef r = Some q -> innerHTML q = C ->
             value_effect C r = {| refs_after := r; writes := [] |})
  /\ writes (value_effect C (refs_after (value_effect C r))) = []
  /\ refs_after (value_effect C (refs_after (value_effect C r)))
     = refs_after (value_effect C r).
Proof.
  split.
  - intros q Hq HC. subst C. now apply value_effect_same.
  - destruct r as [e [[h n]|]]; unfold value_effect; simpl.
    + destruct (String.eqb_spec C h) as [E|NE]; simpl.
      * subst C. rewrite String.eqb_refl. now split.
      * rewrite String.eqb_refl. now split.
    + now split.
Qed.

Lemma value_effect_idempotent_witness :
  let r := {| editorRef := true;
              quillRef := Some {| innerHTML := "<p>Connexion</p>";
                                  text_change_handlers := 1 |} |} in
  value_effect "<p>Connexion</p>" r = {| refs_after := r; writes := [] |}.
Proof.
  intros r.
  exact (proj1 (value_effect_idempotent "<p>Connexion</p>" r)
           _ eq_refl eq_refl).
Defined.

(** The [// ignore] branch of [mount_effect] is never taken: the test
    [value === ''] above it has already answered.  The effect assigns
    [''] exactly when [value] is empty and the buffer is not. *)
Lemma mount_effect_writes (value : string) r q :
  quillRef r = Some q ->
  writes (mount_effect value r)
  = if (value =? "") && negb (innerHTML q =? "") then [""] else [].
Proof.
  intros Hq. unfold mount_effect. rewrite Hq.
  assert (E : match editorRef r with true | _ => r end = r)
    by now destruct (editorRef r).
  rewrite E, Hq.
  destruct (String.eqb_spec value "") as [V|V].
  - subst value. now destruct (innerHTML q =? "").
  - destruct (innerHTML q =? value); simpl; [reflexivity|].
    now destruct (innerHTML q =? "<p><br></p>").
Qed.

(** C5, on the code.  With a step whose content is [''] and an editor
    whose buffer is the placeholder of an empty Quill document, the
    inbound path does assign to [root.innerHTML], and so does the mount
    effect on a fresh editor: the placeholder is compared as any other
    string. *)
Theorem value_effect_overwrites_placeholder :
  let r := {| editorRef := true; quillRef := Some new_Quill |} in
  innerHTML new_Quill = "<p><br></p>"
  /\ writes (value_effect "" r) = [""]
  /\ option_map innerHTML (quillRef (refs_after (value_effect "" r)))
     = Some ""
  /\ writes (mount_effect "" {| editorRef := true; quillRef := None |})
     = [""].
Proof.
  intros r. split; [reflexivity|]. split; [|split].
  - unfold value_effect, r. simpl. reflexivity.
  - unfold value_effect, r. simpl. reflexivity.
  - unfold mount_effect. simpl. reflexivity.
Qed.

End EditorBinding.

(** ** The print trigger *)

Lemma falsy_empty (x : string) : x = "" -> falsy x = true.
Proof. intros ->. reflexivity. Qed.

(** C10.  With an empty [jiraNumber] or an empty [jiraName],
    [handlePrint] and the earlier [generatePDF] show the message and
    return: the state is the one they were given, and the only call
    made is the [alert]; no [window.print()], no timer, no export. *)
Theorem print_refused_without_jira_fields :
  (forall s : AppState,
      jiraNumber (data s) = "" \/ jiraName (data s) = "" ->
      handlePrint s = (s, [alert msg_fill_jira]))
  /\ (forall s : Legacy.AppState,
        jiraNumber (Legacy.data s) = "" \/ jiraName (Legacy.data s) = "" ->
        Legacy.generatePDF s = (s, [alert msg_fill_jira])).
Proof.
  split; intros s [H|H].
  - unfold handlePrint. now rewrite (falsy_empty _ H).
  - unfold handlePrint. rewrite (falsy_empty _ H). now rewrite orb_true_r.
  - unfold Legacy.generatePDF. now rewrite (falsy_empty _ H).
  - unfold Legacy.generatePDF. rewrite (falsy_empty _ H).
    now rewrite orb_true_r.
Qed.

Lemma print_refused_without_jira_fields_witness :
  let d := with_steps (INITIAL_DATA "2024-05-17" "a") [] in
  handlePrint {| data := d; isPreviewOpen := true; copied := false |}
  = ({| data := d; isPreviewOpen := true; copied := false |},
     [alert msg_fill_jira])
  /\ Legacy.generatePDF {| Legacy.data := d; Legacy.isGenerating := false |}
     = ({| Legacy.data := d; Legacy.isGenerating := false |},
        [alert msg_fill_jira]).
Proof.
  intros d. split.
  - apply (proj1 print_refused_without_jira_fields). left. reflexivity.
  - apply (proj2 print_refused_without_jira_fields). right. reflexivity.
Defined.

(** ** Rendering *)

Section Rendering.

Implicit Types (d : AppData) (s : string).

Lemma replace_non_digits_filter s :
  replace_non_digits s
  = string_of_list_ascii (filter is_digit (list_ascii_of_string s)).
Proof.
  induction s as [|c s IH]; simpl; [reflexivity|].
  destruct (is_digit c); simpl; now rewrite IH.
Qed.

Lemma replace_non_digits_none s :
  Forall (fun c => is_digit c = false) (list_ascii_of_string s) ->
  replace_non_digits s = "".
Proof.
  induction s as [|c s IH]; simpl; intros H; [reflexivity|].
  inversion H as [|? ? Hc Hs]; subst. rewrite Hc. now apply IH.
Qed.

(** C8.  [jiraDigits] is [jiraNumber] with every character that is not a
    digit taken out, the digits staying in order; the content section
    shows [sqlQuery], which is the fixed text around [jiraDigits], or
    around [XXXX] when there is no digit.  ["ERP-1234"] gives [1234]; a
    [jiraNumber] without a digit gives [XXXX].  The earlier template
    fills its own query the same way. *)
Theorem sql_snippet_embeds_jira_digits d :
  jiraDigits d
  = string_of_list_ascii
      (filter is_digit (list_ascii_of_string (jiraNumber d)))
  /\ rendered_sql d = Some (sqlQuery d)
  /\ sqlQuery d
     = "select * from ps_s1_scripts_tbl where s1_script_name like '%"
       ++ (if jiraDigits d =? "" then "XXXX" else jiraDigits d) ++ "J%';"
  /\ (jiraNumber d = "ERP-1234" ->
      sqlQuery d
      = "select * from ps_s1_scripts_tbl where s1_script_name like '%1234J%';")
  /\ (Forall (fun c => is_digit c = false)
        (list_ascii_of_string (jiraNumber d)) ->
      sqlQuery d
      = "select * from ps_s1_scripts_tbl where s1_script_name like '%XXXXJ%';")
  /\ text_of (div "sql-block" (Legacy.sql_block (jiraDigits d)))
     = "select * from psoprdzfn where oprid='"
       ++ (if jiraDigits d =? "" then "XXXX" else jiraDigits d) ++ "';".
Proof.
  split; [apply replace_non_digits_filter|].
  split.
  { unfold rendered_sql, sqlQuery. generalize (jiraDigits d) as digits.
    intros digits. reflexivity. }
  split; [reflexivity|].
  split.
  { intros E. unfold sqlQuery, jiraDigits. rewrite E. reflexivity. }
  split.
  { intros H. unfold sqlQuery, jiraDigits.
    rewrite (replace_non_digits_none _ H). reflexivity. }
  unfold Legacy.sql_block, str_or, falsy. simpl.
  destruct (jiraDigits d =? ""); reflexivity.
Qed.

Lemma sql_snippet_embeds_jira_digits_witness :
  let d0 := INITIAL_DATA "2024-05-17" "a" in
  let d :=
    {| jiraNumber := "ERP-1234"; jiraName := "Facturation";
       type := TMA; date := date d0; environment := FPOST;
       conclusion := KO; localImage := None; steps := steps d0 |} in
  sqlQuery d
  = "select * from ps_s1_scripts_tbl where s1_script_name like '%1234J%';"
  /\ sqlQuery d0
     = "select * from ps_s1_scripts_tbl where s1_script_name like '%XXXXJ%';".
Proof.
  intros d0 d. split.
  - apply (proj1 (proj2 (proj2 (proj2
             (sql_snippet_embeds_jira_digits d))))). reflexivity.
  - apply (proj1 (proj2 (proj2 (proj2 (proj2
             (sql_snippet_embeds_jira_digits d0)))))). constructor.
Defined.

(** C1.  For every document and whatever the host's date formatting
    is, the preview pane and the hidden print template hold the same
    nodes, [PrintContent data jiraDigits] followed by the fixed footer,
    inside containers that differ in their class only; the content
    section found in the one is the content section found in the
    other, [pdf_content]. *)
Theorem preview_and_print_same_content
  (toLocaleDateString_frFR : string -> string) d :
  let shared :=
    (PrintContent toLocaleDateString_frFR d (jiraDigits d)
     ++ [pdf_footer_fixed d])%list in
  print_container (preview_pane toLocaleDateString_frFR d)
  = Some ("print-container shadow-2xl relative", shared)
  /\ print_container (print_template toLocaleDateString_frFR d)
     = Some ("print-container relative", shared)
  /\ find_class "pdf-content" (preview_pane toLocaleDateString_frFR d)
     = Some (pdf_content d (jiraDigits d))
  /\ find_class "pdf-content" (print_template toLocaleDateString_frFR d)
     = find_class "pdf-content" (preview_pane toLocaleDateString_frFR d).
Proof.
  intros shared.
  assert (P : forall pane c props,
             children_of pane = [Element "div" props shared] ->
             prop_of "className" props = Some c ->
             print_container pane = Some (c, shared)).
  { intros pane c props Hk Hc. unfold print_container.
    now rewrite Hk, Hc. }
  split.
  { apply (P _ _ [className "print-container shadow-2xl relative"]);
      reflexivity. }
  split.
  { apply (P _ _ [("ref", "printTemplateRef");
                  className "print-container relative"]); reflexivity. }
  assert (C : forall pane,
             find_class "pdf-content" pane
             = Some (pdf_content d (jiraDigits d)) ->
             find_class "pdf-content" pane
             = find_class "pdf-content"
                 (preview_pane toLocaleDateString_frFR d)).
  { intros pane ->. reflexivity. }
  split; [reflexivity|]. apply C. reflexivity.
Qed.

End Rendering.

(** ** JSON: what [parse] makes of what [stringify] writes *)

Module JsonFacts.

Import Json.

(** *** Strings *)

Lemma append_assoc (a b c : string) : (a ++ b) ++ c = a ++ (b ++ c).
Proof. induction a as [|x a IH]; simpl; [reflexivity|]. now rewrite IH. Qed.

Lemma append_nil_r (a : string) : a ++ "" = a.
Proof. induction a as [|x a IH]; simpl; [reflexivity|]. now rewrite IH. Qed.

(** *** White space *)

Lemma blank_app (a b : string) :
  blank a = true -> blank b = true -> blank (a ++ b) = true.
Proof.
  induction a as [|x a IH]; simpl; intros Ha Hb; [assumption|].
  apply andb_true_iff in Ha as [Hx Ha]. rewrite Hx. now apply IH.
Qed.

Lemma skip_ws_blank (w s : string) :
  blank w = true -> skip_ws (w ++ s) = skip_ws s.
Proof.
  induction w as [|x w IH]; simpl; intros Hw; [reflexivity|].
  apply andb_true_iff in Hw as [Hx Hw]. rewrite Hx. now apply IH.
Qed.

Lemma skip_ws_length (s : string) :
  String.length (skip_ws s) <= String.length s.
Proof.
  induction s as [|c s IH]; simpl; [lia|].
  destruct (is_ws c); simpl; lia.
Qed.

(** *** String literals *)

Lemma parse_chars_quote_char (c : ascii) (s : string) :
  parse_chars None (quote_char c ++ s)
  = prepend (String c "") (parse_chars None s).
Proof.
  destruct c as [b0 b1 b2 b3 b4 b5 b6 b7].
  destruct b0, b1, b2, b3, b4, b5, b6, b7; reflexivity.
Qed.

Lemma parse_chars_quoted (s rest : string) :
  parse_chars None (quote_chars s ++ String dquote rest) = Ok s rest.
Proof.
  induction s as [|c s IH]; simpl; [reflexivity|].
  rewrite append_assoc, parse_chars_quote_char, IH. reflexivity.
Qed.

Lemma QuoteJSONString_app (s rest : string) :
  QuoteJSONString s ++ rest
  = String dquote (quote_chars s ++ String dquote rest).
Proof. unfold QuoteJSONString. simpl. now rewrite append_assoc. Qed.

(** *** Fuel *)

Lemma below_refl {A} (p : Parsed A) : below p p.
Proof. now right. Qed.

Lemma below_bind {A B} (p p' : Parsed A) (k k' : A -> string -> Parsed B) :
  below p p' -> (forall a r, below (k a r) (k' a r)) ->
  below (bind p k) (bind p' k').
Proof.
  intros [-> | ->] Hk; [now left|].
  destruct p'; simpl; [apply Hk|apply below_refl|apply below_refl].
Qed.

Ltac below_step :=
  match goal with
  | |- below ?x ?x => apply below_refl
  | H : forall s, below (?f ?n s) _ |- below (?f ?n _) _ => apply H
  | |- below (bind _ _) (bind _ _) => apply below_bind; [|intros ? ?]
  | |- below (match ?x with _ => _ end) _ => destruct x
  end.

(** More fuel never changes an answer. *)
Lemma fuel_monotone (f : nat) :
  forall f', f <= f' ->
  (forall s, below (parse_value f s) (parse_value f' s))
  /\ (forall s, below (parse_elements f s) (parse_elements f' s))
  /\ (forall s, below (parse_members f s) (parse_members f' s)).
Proof.
  induction f as [|f IH]; intros f' Hle.
  - repeat split; intros s; now left.
  - destruct f' as [|f']; [lia|].
    destruct (IH f' ltac:(lia)) as (Hv & He & Hm).
    split; [|split]; intros s; simpl; repeat below_step.
Qed.

Lemma consumes_bind {A B} n m (p : Parsed A) (k : A -> string -> Parsed B) :
  consumes n p ->
  (forall a r, String.length r < n -> consumes m (k a r)) ->
  consumes m (bind p k).
Proof. destruct p; simpl; intros Hp Hk; [now apply Hk|exact I|exact Hp]. Qed.

Lemma consumes_weaken {A} n m (p : Parsed A) :
  consumes n p -> n <= m -> consumes m p.
Proof. destruct p; simpl; intros; [lia|exact I|assumption]. Qed.

Lemma parse_chars_consumes (s : string) :
  forall hi, consumes (S (String.length s)) (parse_chars hi s).
Proof.
  assert (P : forall n x (p : Parsed string),
             consumes n p -> consumes n (prepend x p)).
  { intros n x p Hp. unfold prepend. apply (consumes_bind n n _ _ Hp).
    intros a r Hr. exact Hr. }
  induction s as [s IH] using
    (well_founded_induction
       (Wf_nat.well_founded_ltof _ String.length)).
  unfold Wf_nat.ltof in IH.
  assert (R : forall hi r, String.length r < String.length s ->
              consumes (S (String.length s)) (parse_chars hi r)).
  { intros hi r Hr. apply (consumes_weaken (S (String.length r))).
    - now apply IH.
    - lia. }
  intros hi. destruct s as [|c r]; [exact I|].
  cbn [parse_chars]. simpl String.length in *.
  destruct (Ascii.eqb c dquote); [simpl; lia|].
  destruct (Ascii.eqb c backslash).
  - destruct r as [|e r1]; [exact I|].
    destruct (Ascii.eqb e "u").
    + destruct r1 as [|h1 [|h2 [|h3 [|h4 r2]]]]; try exact I.
      destruct (hex4 h1 h2 h3 h4) as [n|]; [|exact I].
      destruct (is_high_surrogate n); [apply P, R; simpl; lia|].
      destruct (is_low_surrogate n); [|apply P, R; simpl; lia].
      destruct hi; apply P, R; simpl; lia.
    + destruct (simple_escape e); [|exact I]. apply P, R. simpl. lia.
  - destruct (N_of_ascii c <? 32)%N; [exact I|]. apply P, R. simpl. lia.
Qed.

Lemma span_digits_length (s : string) :
  String.length (snd (span_digits s)) <= String.length s.
Proof.
  induction s as [|c s IH]; simpl; [lia|].
  destruct (is_digit c); simpl; [|lia].
  destruct (span_digits s); simpl in *. lia.
Qed.

Lemma strip_prefix_length (p s rest : string) :
  strip_prefix p s = Some rest ->
  String.length rest + String.length p = String.length s.
Proof.
  revert s. induction p as [|a p IH]; intros s; simpl.
  - intros [= ->]. lia.
  - destruct s as [|b s]; [discriminate|].
    destruct (Ascii.eqb a b); [|discriminate].
    intros H. apply IH in H. simpl. lia.
Qed.

Lemma literal_consumes word v (s : string) :
  0 < String.length word ->
  consumes (String.length s) (literal word v s).
Proof.
  intros Hw. unfold literal.
  destruct (strip_prefix word s) eqn:E; [|exact I].
  apply strip_prefix_length in E. simpl. lia.
Qed.

Lemma span_consumes {A} n (r : string) (k : string -> string -> Parsed A) :
  (forall ds r', String.length r' <= String.length r -> consumes n (k ds r')) ->
  consumes n (let (ds, r') := span_digits r in k ds r').
Proof.
  intros H. pose proof (span_digits_length r) as L.
  destruct (span_digits r) as [ds r']. simpl in L. now apply H.
Qed.

Lemma parse_number_consumes (s : string) :
  consumes (String.length s) (parse_number s).
Proof.
  unfold parse_number.
  assert (E : exists sign s1,
             match s with
             | String c r => if Ascii.eqb c "-" then ("-", r) else ("", s)
             | EmptyString => ("", s)
             end = (sign, s1) /\ String.length s1 <= String.length s).
  { destruct s as [|c r]; [now exists "", ""|].
    destruct (Ascii.eqb c "-"); eexists _, _; split; try reflexivity;
      simpl; lia. }
  destruct E as (sign & s1 & -> & L1).
  apply (consumes_bind (String.length s)).
  { destruct s1 as [|c r]; [exact I|]. simpl in L1.
    destruct (Ascii.eqb c "0"); [simpl; lia|].
    destruct (is_digit c); [|exact I].
    apply span_consumes. intros ds r' L. simpl. lia. }
  intros i s2 L2.
  apply (consumes_bind (S (String.length s2))).
  { destruct s2 as [|c r]; [simpl; lia|].
    destruct (Ascii.eqb c "."); [|simpl; lia].
    apply span_consumes. intros ds r' L.
    destruct (ds =? ""); [exact I|]. simpl in *. lia. }
  intros f s3 L3.
  apply (consumes_bind (S (String.length s3))).
  { destruct s3 as [|c r]; [simpl; lia|].
    destruct (Ascii.eqb c "e" || Ascii.eqb c "E"); [|simpl; lia].
    assert (E : exists sg r1,
               match r with
               | String d r0 =>
                   if Ascii.eqb d "+" || Ascii.eqb d "-"
                   then (String d "", r0) else ("", r)
               | EmptyString => ("", r)
               end = (sg, r1) /\ String.length r1 <= String.length r).
    { destruct r as [|d r0]; [now exists "", ""|].
      destruct (Ascii.eqb d "+" || Ascii.eqb d "-"); eexists _, _; split;
        try reflexivity; simpl; lia. }
    destruct E as (sg & r1 & -> & L).
    apply span_consumes. intros ds r' L'.
    destruct (ds =? ""); [exact I|]. simpl in *. lia. }
  intros e s4 L4. simpl. lia.
Qed.

Ltac ws_cases x c r :=
  let E := fresh "E" in
  let L := fresh "L" in
  pose proof (skip_ws_length x) as L;
  destruct (skip_ws x) as [|c r] eqn:E; [exact I|simpl in L].

(** With [2 * n + 1] units of fuel the descent through a text of [n]
    characters ends, and what a successful call leaves is shorter than
    what it was given. *)
Lemma fuel_adequate (f : nat) :
  (forall s, 2 * String.length s + 1 <= f ->
             consumes (String.length s) (parse_value f s))
  /\ (forall s, 2 * String.length s + 2 <= f ->
                consumes (String.length s) (parse_elements f s))
  /\ (forall s, 2 * String.length s + 2 <= f ->
                consumes (String.length s) (parse_members f s)).
Proof.
  induction f as [|f (Hv & He & Hm)].
  - repeat split; intros s H; lia.
  - split; [|split]; intros s H; simpl.
    + ws_cases s c r.
      destruct (Ascii.eqb c "{").
      { ws_cases r c' r'. destruct (Ascii.eqb c' "}"); [simpl; lia|].
        apply (consumes_bind (String.length r)); [apply Hm; lia|].
        intros m rest Hr. simpl. lia. }
      destruct (Ascii.eqb c "[").
      { ws_cases r c' r'. destruct (Ascii.eqb c' "]"); [simpl; lia|].
        apply (consumes_bind (String.length r)); [apply He; lia|].
        intros l rest Hr. simpl. lia. }
      destruct (Ascii.eqb c dquote).
      { apply (consumes_bind (S (String.length r)));
          [apply parse_chars_consumes|].
        intros x rest Hr. simpl. lia. }
      assert (W : forall (p : Parsed value),
                 consumes (String.length (String c r)) p ->
                 consumes (String.length s) p).
      { intros p Hp. apply (consumes_weaken _ _ _ Hp). simpl. lia. }
      destruct (Ascii.eqb c "t"); [apply W, literal_consumes; simpl; lia|].
      destruct (Ascii.eqb c "f"); [apply W, literal_consumes; simpl; lia|].
      destruct (Ascii.eqb c "n"); [apply W, literal_consumes; simpl; lia|].
      apply W.
      apply (consumes_bind _ _ _ _ (parse_number_consumes _)).
      intros x rest Hr. exact Hr.
    + apply (consumes_bind (String.length s)); [apply Hv; lia|].
      intros v r Hr. ws_cases r c r'.
      destruct (Ascii.eqb c ","); [|destruct (Ascii.eqb c "]")];
        [|simpl; lia|exact I].
      apply (consumes_bind (String.length r')); [apply He; lia|].
      intros l rest Hrest. simpl. lia.
    + ws_cases s q r. destruct (Ascii.eqb q dquote); [|exact I].
      apply (consumes_bind (S (String.length r)));
        [apply parse_chars_consumes|].
      intros k r1 Hr1. ws_cases r1 c r2.
      destruct (Ascii.eqb c ":"); [|exact I].
      apply (consumes_bind (String.length r2)); [apply Hv; lia|].
      intros v r3 Hr3. ws_cases r3 d r4.
      destruct (Ascii.eqb d ","); [|destruct (Ascii.eqb d "}")];
        [|simpl; lia|exact I].
      apply (consumes_bind (String.length r4)); [apply Hm; lia|].
      intros m rest Hrest. simpl. lia.
Qed.

Lemma define_property_fresh o k v :
  existsb (String.eqb k) (map fst o) = false ->
  define_property o k v = (o ++ [(k, v)])%list.
Proof.
  induction o as [|[k' v'] o IHo]; simpl; intros H; [reflexivity|].
  apply orb_false_iff in H as [Hk Ho].
  rewrite String.eqb_sym, Hk. now rewrite IHo.
Qed.

Lemma existsb_app_false (k : string) (a b : list string) :
  existsb (String.eqb k) (a ++ b) = false <->
  existsb (String.eqb k) a = false /\ existsb (String.eqb k) b = false.
Proof. rewrite existsb_app. apply orb_false_iff. Qed.

Lemma fold_define_distinct m :
  forall acc,
    distinct (map fst m) = true ->
    (forall k, In k (map fst m) ->
               existsb (String.eqb k) (map fst acc) = false) ->
    fold_left (fun o kv => define_property o (fst kv) (snd kv)) m acc
    = (acc ++ m)%list.
Proof.
  induction m as [|[k v] m IHm]; intros acc Hd Hacc; simpl.
  - now rewrite app_nil_r.
  - simpl in Hd. apply andb_true_iff in Hd as [Hk Hm].
    apply negb_true_iff in Hk.
    rewrite define_property_fresh by (apply Hacc; now left).
    rewrite IHm.
    + now rewrite <- app_assoc.
    + exact Hm.
    + intros k' Hk'. rewrite map_app. apply existsb_app_false. split.
      * apply Hacc. now right.
      * simpl. rewrite orb_false_r. apply String.eqb_neq. intros ->.
        apply in_map_iff in Hk' as ((k2 & v2) & E & Hin). simpl in E.
        subst k2.
        assert (X : existsb (String.eqb k) (map fst m) = true).
        { apply existsb_exists. exists k. split.
          - apply in_map_iff. now exists (k, v2).
          - apply String.eqb_refl. }
        congruence.
Qed.

Lemma object_of_distinct m :
  distinct (map fst m) = true -> object_of m = JObject m.
Proof.
  intros H. unfold object_of. rewrite fold_define_distinct; auto.
Qed.

Lemma member_text_app ind' (k : string) (x : value) (t : string) :
  member_text ind' (k, x) ++ t
  = String dquote
      (quote_chars k
       ++ String dquote
            (String ":" (" " ++ (SerializeJSONProperty ind' x ++ t)))).
Proof.
  unfold member_text.
  rewrite append_assoc, QuoteJSONString_app, append_assoc. reflexivity.
Qed.

Lemma parse_value_blank f (w t : string) :
  blank w = true -> parse_value f (w ++ t) = parse_value f t.
Proof.
  intros Hw. destruct f; [reflexivity|]. simpl.
  now rewrite skip_ws_blank.
Qed.

Lemma serialize_head ind v :
  plain v = true ->
  exists c t, SerializeJSONProperty ind v = String c t
              /\ is_ws c = false /\ Ascii.eqb c "]" = false
              /\ Ascii.eqb c "}" = false.
Proof.
  destruct v as [|[|]|n|s|[|x l]|[|kv m]]; simpl; intros H;
    try discriminate; eexists _, _; repeat split; reflexivity.
Qed.

Lemma skip_ws_head (c : ascii) (t : string) :
  is_ws c = false -> skip_ws (String c t) = String c t.
Proof. intros H. simpl. now rewrite H. Qed.

Lemma concat_cons2 sep (a b : string) l :
  String.concat sep (a :: b :: l) = a ++ sep ++ String.concat sep (b :: l).
Proof. reflexivity. Qed.

Section RoundTrip.

Variable F : nat.
Hypothesis IH :
  forall f, f < F -> forall v, size v <= f -> plain v = true ->
  forall ind rest, blank ind = true ->
  parse_value f (SerializeJSONProperty ind v ++ rest) = Ok v rest.

Lemma elements_roundtrip ind' (tail rest : string) :
  blank ind' = true ->
  skip_ws tail = String "]" rest ->
  forall l x w f,
    f <= F ->
    list_sum (map (fun y => S (size y)) (x :: l)) <= f ->
    forallb plain (x :: l) = true ->
    blank w = true ->
    parse_elements f
      (w ++ String.concat (String "," (String newline ind'))
              (map (SerializeJSONProperty ind') (x :: l)) ++ tail)
    = Ok (x :: l) rest.
Proof.
  intros Hind Htail l.
  induction l as [|y l IHl]; intros x w f HF Hsz Hpl Hw;
    (destruct f as [|f]; [simpl in Hsz; lia|]);
    simpl in Hpl; apply andb_true_iff in Hpl as [Hx Hl];
    cbn [parse_elements]; rewrite parse_value_blank by exact Hw.
  - simpl map. simpl String.concat.
    rewrite (IH f) by (try assumption; simpl in Hsz; lia).
    simpl. rewrite Htail. reflexivity.
  - cbn [map]. rewrite concat_cons2, !append_assoc.
    rewrite (IH f) by (try assumption; simpl in Hsz; lia).
    cbn [bind append]. rewrite skip_ws_head by reflexivity.
    simpl (Ascii.eqb _ _). cbv iota.
    change (String newline (ind' ++ ?t)) with ((String newline ind') ++ t).
    assert (R := IHl y (String newline ind') f). cbn [map] in R.
    rewrite R; try assumption.
    + reflexivity.
    + lia.
    + simpl in Hsz |- *. lia.
Qed.

Lemma members_roundtrip ind' (tail rest : string) :
  blank ind' = true ->
  skip_ws tail = String "}" rest ->
  forall m kv w f,
    f <= F ->
    list_sum (map (fun y => S (size (snd y))) (kv :: m)) <= f ->
    forallb (fun y => plain (snd y)) (kv :: m) = true ->
    blank w = true ->
    parse_members f
      (w ++ String.concat (String "," (String newline ind'))
              (map (member_text ind') (kv :: m)) ++ tail)
    = Ok (kv :: m) rest.
Proof.
  intros Hind Htail m.
  induction m as [|y m IHm]; intros [k x] w f HF Hsz Hpl Hw;
    (destruct f as [|f]; [simpl in Hsz; lia|]);
    simpl in Hpl; apply andb_true_iff in Hpl as [Hx Hl];
    cbn [parse_members]; rewrite skip_ws_blank by exact Hw.
  - cbn [map String.concat]. rewrite member_text_app.
    rewrite skip_ws_head by reflexivity.
    simpl (Ascii.eqb _ _). cbv iota.
    rewrite parse_chars_quoted. cbn [bind].
    rewrite skip_ws_head by reflexivity. simpl (Ascii.eqb _ _). cbv iota.
    rewrite parse_value_blank by reflexivity.
    rewrite (IH f) by (try assumption; simpl in Hsz; lia).
    cbn [bind]. rewrite Htail. reflexivity.
  - cbn [map]. rewrite concat_cons2, !append_assoc, member_text_app.
    rewrite skip_ws_head by reflexivity.
    simpl (Ascii.eqb _ _). cbv iota.
    rewrite parse_chars_quoted. cbn [bind].
    rewrite skip_ws_head by reflexivity. simpl (Ascii.eqb _ _). cbv iota.
    rewrite parse_value_blank by reflexivity.
    rewrite (IH f) by (try assumption; simpl in Hsz; lia).
    cbn [bind append]. rewrite skip_ws_head by reflexivity.
    simpl (Ascii.eqb _ _). cbv iota.
    change (String newline (ind' ++ ?t)) with ((String newline ind') ++ t).
    assert (R := IHm y (String newline ind') f). cbn [map] in R.
    rewrite R; try assumption.
    + reflexivity.
    + lia.
    + simpl in Hsz |- *. lia.
Qed.

End RoundTrip.

Lemma serialize_array ind x l (rest : string) :
  SerializeJSONProperty ind (JArray (x :: l)) ++ rest
  = String "["
      (String newline (ind ++ gap)
       ++ String.concat (String "," (String newline (ind ++ gap)))
            (map (SerializeJSONProperty (ind ++ gap)) (x :: l))
       ++ String newline (ind ++ String "]" rest)).
Proof.
  cbn [SerializeJSONProperty append]. rewrite !append_assoc. reflexivity.
Qed.

Lemma serialize_object ind kv m (rest : string) :
  SerializeJSONProperty ind (JObject (kv :: m)) ++ rest
  = String "{"
      (String newline (ind ++ gap)
       ++ String.concat (String "," (String newline (ind ++ gap)))
            (map (member_text (ind ++ gap)) (kv :: m))
       ++ String newline (ind ++ String "}" rest)).
Proof.
  cbn [SerializeJSONProperty append]. rewrite !append_assoc. reflexivity.
Qed.

Lemma concat_head sep (c : ascii) (t : string) l (tail : string) :
  exists u, String.concat sep (String c t :: l) ++ tail = String c u.
Proof. destruct l; eexists; reflexivity. Qed.

Lemma skip_ws_closing (ind : string) (c : ascii) (rest : string) :
  blank ind = true -> is_ws c = false ->
  skip_ws (String newline (ind ++ String c rest)) = String c rest.
Proof.
  intros Hb Hc. change (skip_ws ((String newline ind) ++ String c rest) = String c rest).
  rewrite skip_ws_blank by exact Hb. now apply skip_ws_head.
Qed.

Lemma blank_indent ind : blank ind = true -> blank (String newline (ind ++ gap)) = true.
Proof. intros H. apply (blank_app (String newline ind) gap); [exact H|reflexivity]. Qed.

Lemma elements_head sep ind' x l (tail : string) :
  plain x = true ->
  exists c u,
    skip_ws (String.concat sep (map (SerializeJSONProperty ind') (x :: l))
             ++ tail) = String c u
    /\ Ascii.eqb c "]" = false.
Proof.
  intros Hx.
  destruct (serialize_head ind' x Hx) as (c & t & E & Hc & Hc1 & _).
  cbn [map]. rewrite E.
  destruct (concat_head sep c t (map (SerializeJSONProperty ind') l) tail)
    as [u ->].
  exists c, u. split; [now apply skip_ws_head|exact Hc1].
Qed.

Lemma members_head sep ind' kv m (tail : string) :
  exists u,
    skip_ws (String.concat sep (map (member_text ind') (kv :: m)) ++ tail)
    = String dquote u.
Proof.
  destruct kv as [k x]. cbn [map]. unfold member_text at 1.
  unfold QuoteJSONString.
  destruct (concat_head sep dquote
              ((quote_chars k ++ String dquote "")
               ++ ": " ++ SerializeJSONProperty ind' x)
              (map (member_text ind') m) tail) as [u E].
  exists u. cbn [append] in E |- *. rewrite E. now apply skip_ws_head.
Qed.

Lemma roundtrip_at_fuel (F : nat) :
  forall v, size v <= F -> plain v = true ->
  forall ind rest, blank ind = true ->
  parse_value F (SerializeJSONProperty ind v ++ rest) = Ok v rest.
Proof.
  induction F as [F IH] using lt_wf_ind.
  intros v Hs Hp ind rest Hb.
  destruct F as [|F]; [destruct v; simpl in Hs; lia|].
  destruct v as [|[|]|n|s|[|x l]|[|kv m]]; try reflexivity.
  - discriminate Hp.
  - cbn [SerializeJSONProperty]. rewrite QuoteJSONString_app.
    cbn [parse_value]. rewrite skip_ws_head by reflexivity.
    simpl (Ascii.eqb _ _). cbv iota.
    now rewrite parse_chars_quoted.
  - rewrite serialize_array. cbn [parse_value].
    rewrite skip_ws_head by reflexivity. simpl (Ascii.eqb _ _). cbv iota.
    set (tail := String newline (ind ++ String "]" rest)).
    cbn [plain] in Hp. pose proof Hp as Hp'. cbn [forallb] in Hp'.
    apply andb_true_iff in Hp' as [Hx _].
    rewrite (skip_ws_blank _ _ (blank_indent ind Hb)).
    destruct (elements_head (String "," (String newline (ind ++ gap)))
                (ind ++ gap) x l tail Hx) as (c & u & -> & ->).
    rewrite (elements_roundtrip (S F) IH (ind ++ gap) tail rest).
    + reflexivity.
    + apply blank_app; [exact Hb|reflexivity].
    + unfold tail. now apply skip_ws_closing.
    + lia.
    + cbn [size] in Hs. lia.
    + exact Hp.
    + now apply blank_indent.
  - rewrite serialize_object. cbn [parse_value].
    rewrite skip_ws_head by reflexivity. simpl (Ascii.eqb _ _). cbv iota.
    set (tail := String newline (ind ++ String "}" rest)).
    cbn [plain] in Hp. apply andb_true_iff in Hp as [Hp Hd].
    rewrite (skip_ws_blank _ _ (blank_indent ind Hb)).
    destruct (members_head (String "," (String newline (ind ++ gap)))
                (ind ++ gap) kv m tail) as (u & ->).
    simpl (Ascii.eqb _ _). cbv iota.
    rewrite (members_roundtrip (S F) IH (ind ++ gap) tail rest).
    + cbn [bind]. now rewrite object_of_distinct.
    + apply blank_app; [exact Hb|reflexivity].
    + unfold tail. now apply skip_ws_closing.
    + lia.
    + cbn [size] in Hs. lia.
    + exact Hp.
    + now apply blank_indent.
Qed.

(** [JSON.parse(JSON.stringify(v, null, 2))] is [v], for every plain
    value. *)
Lemma parse_stringify v : plain v = true -> parse (stringify v) = Some v.
Proof.
  intros Hp. unfold parse, stringify.
  set (text := SerializeJSONProperty "" v).
  set (F := 2 * String.length text + 1).
  assert (R : parse_value (size v) text = Ok v "").
  { rewrite <- (append_nil_r text).
    now apply roundtrip_at_fuel. }
  assert (A : consumes (String.length text) (parse_value F text)).
  { apply (proj1 (fuel_adequate F)). unfold F. lia. }
  assert (E : parse_value F text = Ok v "").
  { destruct (Nat.le_gt_cases (size v) F) as [L|L].
    - destruct (proj1 (fuel_monotone (size v) F L) text) as [B|B];
        congruence.
    - destruct (proj1 (fuel_monotone F (size v) ltac:(lia)) text)
        as [B|B]; [|congruence].
      rewrite B in A. destruct A. }
  rewrite E. reflexivity.
Qed.

(** [parse] never stops for lack of fuel. *)
Lemma parse_total (text : string) :
  parse_value (2 * String.length text + 1) text <> OutOfFuel.
Proof.
  intros E.
  assert (A := proj1 (fuel_adequate (2 * String.length text + 1)) text
                 (Nat.le_refl _)).
  rewrite E in A. exact A.
Qed.

End JsonFacts.

(** ** Save and restore *)

Section SaveRestore.

Import Json JsonFacts.

Implicit Types (d : AppData) (prev json : Json.value).

Lemma plain_steps (l : list TestStep) :
  forallb plain (map TestStep_value l) = true.
Proof. induction l as [|s l IH]; simpl; [reflexivity|exact IH]. Qed.

Lemma plain_AppData d : plain (AppData_value d) = true.
Proof.
  unfold AppData_value. cbn [plain forallb snd map fst].
  rewrite plain_steps. destruct (localImage d); reflexivity.
Qed.

Lemma steps_of_values (l : list TestStep) :
  all_some (map TestStep_of_value (map TestStep_value l)) = Some l.
Proof.
  induction l as [|[i t c] l IH]; simpl; [reflexivity|].
  simpl in IH. now rewrite IH.
Qed.

Lemma AppData_of_value_AppData d :
  AppData_of_value (AppData_value d) = Some d.
Proof.
  destruct d as [num name ty dt env concl img st].
  unfold AppData_of_value, AppData_value. cbn [get_string get].
  simpl. rewrite steps_of_values.
  destruct ty, env, concl, img; reflexivity.
Qed.

Lemma AppData_value_injective d d' :
  AppData_value d' = AppData_value d -> d' = d.
Proof.
  intros E. apply (f_equal AppData_of_value) in E.
  rewrite !AppData_of_value_AppData in E. now injection E.
Qed.

(** The text [downloadJSON] writes for the initial document once its
    step is removed, as [JSON.stringify(data, null, 2)] lays it out. *)
Example downloadJSON_text_layout :
  let q := fun x : string => String dquote (x ++ String dquote "") in
  downloadJSON_text (removeStep "a" (INITIAL_DATA "2024-05-17" "a"))
  = "{" ++ nl
    ++ "  " ++ q "jiraNumber" ++ ": " ++ q "" ++ "," ++ nl
    ++ "  " ++ q "jiraName" ++ ": " ++ q "" ++ "," ++ nl
    ++ "  " ++ q "type" ++ ": " ++ q "TMD" ++ "," ++ nl
    ++ "  " ++ q "date" ++ ": " ++ q "2024-05-17" ++ "," ++ nl
    ++ "  " ++ q "environment" ++ ": " ++ q "FRECMCOR" ++ "," ++ nl
    ++ "  " ++ q "conclusion" ++ ": " ++ q "OK" ++ "," ++ nl
    ++ "  " ++ q "localImage" ++ ": null," ++ nl
    ++ "  " ++ q "steps" ++ ": []" ++ nl
    ++ "}".
Proof. reflexivity. Qed.

(** A step whose content holds a quote and a line break: both are
    escaped on the way out and read back. *)
Example step_with_escapes :
  let c := "<p class=" ++ String dquote ("x" ++ String dquote ">")
           ++ nl ++ "</p>" in
  let s := {| id := "a"; title := "Étape 1"; content := c |} in
  QuoteJSONString c
  = String dquote ("<p class=\" ++ String dquote ("x\" ++ String dquote
      (">\n</p>" ++ String dquote "")))
  /\ Json.parse (stringify (TestStep_value s)) = Some (TestStep_value s).
Proof. split; reflexivity. Qed.

(** C2.  Restoring the text [downloadJSON] wrote for a document gives
    that document back: [JSON.parse] of the text is the value of [d],
    [handleFileUpload] puts it in [data] with its message, whatever
    [data] held before, and the value of [d] is the value of no other
    document. *)
Theorem restore_of_download_is_identity d prev :
  Json.parse (downloadJSON_text d) = Some (AppData_value d)
  /\ handleFileUpload_onload (downloadJSON_text d) prev
     = (AppData_value d, [alert msg_restored])
  /\ AppData_of_value
       (fst (handleFileUpload_onload (downloadJSON_text d) prev))
     = Some d
  /\ (forall d', AppData_value d' = AppData_value d -> d' = d).
Proof.
  assert (P : Json.parse (downloadJSON_text d) = Some (AppData_value d)).
  { unfold downloadJSON_text. apply parse_stringify, plain_AppData. }
  assert (H : handleFileUpload_onload (downloadJSON_text d) prev
              = (AppData_value d, [alert msg_restored])).
  { unfold handleFileUpload_onload. rewrite P. reflexivity. }
  split; [exact P|]. split; [exact H|]. split.
  - rewrite H. apply AppData_of_value_AppData.
  - intros d'. apply AppData_value_injective.
Qed.

(** What [handleFileUpload] does with every text: it either keeps
    [data] or replaces it by the whole parsed value.  When [JSON.parse] throws, it
    reports the read error and keeps [data]; when the value is not an
    object or an array, it keeps [data] and says nothing; every object
    and every array replaces [data], whatever its properties.  So the
    text of any plain object is accepted, with or without [steps]. *)
Lemma restore_is_all_or_nothing (text : string) prev :
  (Json.parse text = None ->
   handleFileUpload_onload text prev = (prev, [alert msg_bad_file]))
  /\ (forall json, Json.parse text = Some json ->
       truthy_object json = false ->
       handleFileUpload_onload text prev = (prev, []))
  /\ (forall json, Json.parse text = Some json ->
       truthy_object json = true ->
       handleFileUpload_onload text prev = (json, [alert msg_restored]))
  /\ (fst (handleFileUpload_onload text prev) = prev
      \/ Json.parse text = Some (fst (handleFileUpload_onload text prev)))
  /\ (forall o, plain (JObject o) = true ->
       handleFileUpload_onload (stringify (JObject o)) prev
       = (JObject o, [alert msg_restored])).
Proof.
  unfold handleFileUpload_onload.
  split; [now intros ->|]. split; [now intros json -> ->|].
  split; [now intros json -> ->|]. split.
  - destruct (Json.parse text) as [json|]; [|now left].
    destruct (truthy_object json); [now right|now left].
  - intros o Ho. now rewrite (parse_stringify _ Ho).
Qed.

Lemma restore_is_all_or_nothing_witness :
  let prev := AppData_value (INITIAL_DATA "2024-05-17" "a") in
  handleFileUpload_onload "{" prev = (prev, [alert msg_bad_file])
  /\ handleFileUpload_onload "null" prev = (prev, [])
  /\ handleFileUpload_onload "[]" prev = (JArray [], [alert msg_restored]).
Proof.
  intros prev. split; [|split].
  - apply (proj1 (restore_is_all_or_nothing "{" prev)). reflexivity.
  - apply (proj1 (proj2 (restore_is_all_or_nothing "null" prev)) JNull);
      reflexivity.
  - apply (proj1 (proj2 (proj2 (restore_is_all_or_nothing "[]" prev)))
             (JArray [])); reflexivity.
Defined.

(** C4, on the code.  The guard of [handleFileUpload] lets every object
    and every array through.  The texts [{}] and [[]] parse to values
    without [steps]; the handler puts them in [data] in place of the
    document and reports success, and the next render of [App] throws
    on [data.jiraNumber.replace] and [data.steps.map].  So does the
    text of every plain object without [steps].  The earlier
    [restoreFromLocalStorage] has no guard at all and stores [{}] and
    [null] alike. *)
Theorem restore_accepts_value_without_steps :
  let prev := AppData_value (INITIAL_DATA "2024-05-17" "a") in
  Json.parse "{}" = Some (JObject [])
  /\ get "steps" [] = None
  /\ handleFileUpload_onload "{}" prev = (JObject [], [alert msg_restored])
  /\ handleFileUpload_onload "[]" prev = (JArray [], [alert msg_restored])
  /\ fst (handleFileUpload_onload "{}" prev) <> prev
  /\ render_jiraDigits (JObject []) = None
  /\ render_steps (JObject []) = None
  /\ render_jiraDigits (JArray []) = None
  /\ AppData_of_value (JObject []) = None
  /\ (forall o, plain (JObject o) = true -> get "steps" o = None ->
       handleFileUpload_onload (stringify (JObject o)) prev
       = (JObject o, [alert msg_restored])
       /\ render_steps (JObject o) = None)
  /\ Legacy.restoreFromLocalStorage (Some "{}") prev
     = (JObject [], [alert Legacy.msg_restored])
  /\ Legacy.restoreFromLocalStorage (Some "null") prev
     = (JNull, [alert Legacy.msg_restored]).
Proof.
  intros prev.
  split; [reflexivity|]. split; [reflexivity|]. split; [reflexivity|].
  split; [reflexivity|]. split; [discriminate|].
  split; [reflexivity|]. split; [reflexivity|]. split; [reflexivity|].
  split; [reflexivity|]. split; [|split; reflexivity].
  intros o Ho Hs. split.
  - unfold handleFileUpload_onload. now rewrite (parse_stringify _ Ho).
  - unfold render_steps. now rewrite Hs.
Qed.

End SaveRestore.

(** * Further properties of the handlers *)

Section StoreAlgebra.

Implicit Types (d : AppData) (s : TestStep) (i j : string).

Lemma merge_step_id s u : u_id u = None -> id (merge_step s u) = id s.
Proof. intros H. unfold merge_step. simpl. now rewrite H. Qed.

Lemma ids_updateStep d i u : u_id u = None -> ids (updateStep i u d) = ids d.
Proof.
  intros H. unfold ids, updateStep. simpl. rewrite map_map.
  apply map_ext. intros s. destruct (id s =? i); [now apply merge_step_id|reflexivity].
Qed.

(** X1.  [updateStep] with a title or a content (no [id] among the
    updates) keeps the ids, the number and the order of the steps: the
    step at each position stays there, unchanged when its id differs
    from the one given, and with only the given fields replaced when it
    is the one given; no other field of the document changes. *)
Theorem updateStep_changes_matching_step_only d i u :
  u_id u = None ->
  ids (updateStep i u d) = ids d
  /\ length (steps (updateStep i u d)) = length (steps d)
  /\ (forall k s, nth_error (steps d) k = Some s ->
        nth_error (steps (updateStep i u d)) k
        = Some (if id s =? i
                then {| id := id s;
                        title := or_else (u_title u) (title s);
                        content := or_else (u_content u) (content s) |}
                else s))
  /\ with_steps (updateStep i u d) (steps d) = d.
Proof.
  intros H. split; [now apply ids_updateStep|].
  split; [unfold updateStep; simpl; apply length_map|].
  split; [|now destruct d].
  intros k s Hk. unfold updateStep. simpl.
  rewrite nth_error_map, Hk. simpl.
  destruct (id s =? i); [|reflexivity].
  unfold merge_step. now rewrite H.
Qed.

Lemma filter_negb_id_idem i (l : list TestStep) :
  filter (fun s => negb (id s =? i)) (filter (fun s => negb (id s =? i)) l)
  = filter (fun s => negb (id s =? i)) l.
Proof.
  induction l as [|a l IH]; simpl; [reflexivity|].
  destruct (negb (id a =? i)) eqn:E; simpl; [rewrite E|]; now rewrite IH.
Qed.

Lemma filter_comm {A} (f g : A -> bool) (l : list A) :
  filter f (filter g l) = filter g (filter f l).
Proof.
  induction l as [|a l IH]; simpl; [reflexivity|].
  destruct (f a) eqn:F, (g a) eqn:G; simpl; rewrite ?F, ?G, IH; reflexivity.
Qed.

Lemma updateStep_changes_matching_step_only_witness :
  let d := addStep "b" (INITIAL_DATA "2024-05-17" "a") in
  let d' := updateStep "b" (title_update "Connexion") d in
  ids d' = ["a"; "b"]
  /\ nth_error (steps d') 1
     = Some {| id := "b"; title := "Connexion"; content := "" |}.
Proof.
  intros d d'.
  destruct (updateStep_changes_matching_step_only d "b"
              (title_update "Connexion") eq_refl) as (Hi & _ & Hk & _).
  split; [exact Hi|]. exact (Hk 1 _ eq_refl).
Defined.

(** X3.  Removing a step twice is removing it once, removals of two ids
    can be done in either order, and after [removeStep i] no step has
    id [i]; the list never grows. *)
Theorem removeStep_idempotent_commutes d i j :
  removeStep i (removeStep i d) = removeStep i d
  /\ removeStep i (removeStep j d) = removeStep j (removeStep i d)
  /\ ~ In i (ids (removeStep i d))
  /\ length (steps (removeStep i d)) <= length (steps d).
Proof.
  split; [|split; [|split]].
  - unfold removeStep. simpl. now rewrite filter_negb_id_idem.
  - unfold removeStep. simpl. now rewrite filter_comm.
  - unfold ids, removeStep. simpl. intros H.
    apply in_map_iff in H as (s & Hs & Hin).
    apply filter_In in Hin as [_ Hn]. rewrite Hs, String.eqb_refl in Hn.
    discriminate.
  - unfold removeStep. simpl. apply filter_length_le.
Qed.

(** X4.  [removeStep] undoes [addStep]: removing the step just added,
    whose id no other step has, gives back the document as it was,
    titles included. *)
Theorem removeStep_undoes_addStep d (u : string) :
  ~ In u (ids d) -> removeStep u (addStep u d) = d.
Proof.
  intros H. unfold removeStep, addStep. simpl.
  rewrite filter_app. simpl. rewrite String.eqb_refl. simpl.
  rewrite app_nil_r, filter_absent by exact H. now destruct d.
Qed.

Lemma removeStep_undoes_addStep_witness :
  let d := INITIAL_DATA "2024-05-17" "a" in
  removeStep "b" (addStep "b" d) = d.
Proof.
  intros d. apply (removeStep_undoes_addStep d "b").
  simpl. intros [H|[]]. discriminate H.
Defined.

Lemma NoDup_ids_filter (f : TestStep -> bool) (l : list TestStep) :
  NoDup (map id l) -> NoDup (map id (filter f l)).
Proof.
  induction l as [|a l IH]; simpl; intros H; [constructor|].
  inversion H as [|? ? Ha Hl]; subst.
  destruct (f a); simpl; [|now apply IH].
  constructor; [|now apply IH].
  intros Hin. apply Ha. apply in_map_iff in Hin as (s & Hs & Hin).
  apply filter_In in Hin as [Hin _]. rewrite <- Hs. now apply in_map.
Qed.

(** X5.  Unique ids stay unique: [removeStep] keeps them so for every
    id, and so does [updateStep] whenever the updates carry no [id], as
    with every call [App] makes. *)
Theorem unique_ids_preserved d i u :
  NoDup (ids d) ->
  NoDup (ids (removeStep i d))
  /\ (u_id u = None -> NoDup (ids (updateStep i u d))).
Proof.
  intros H. split.
  - unfold ids, removeStep. simpl. now apply NoDup_ids_filter.
  - intros Hu. now rewrite ids_updateStep.
Qed.

Lemma unique_ids_preserved_witness :
  let d := addStep "b" (INITIAL_DATA "2024-05-17" "a") in
  NoDup (ids (removeStep "a" d))
  /\ NoDup (ids (updateStep "a" (content_update "<p>ok</p>") d)).
Proof.
  intros d.
  assert (N : NoDup (ids d)).
  { simpl. constructor; [intros [H|[]]; discriminate H|].
    constructor; [intros []|constructor]. }
  split.
  - exact (proj1 (unique_ids_preserved d "a" (title_update "") N)).
  - exact (proj2 (unique_ids_preserved d "a" (content_update "<p>ok</p>") N)
             eq_refl).
Defined.

Lemma updateStep_twice d i j (u v : StepUpdates) :
  updateStep i u (updateStep j v d)
  = with_steps d
      (map (fun s => step_update i u (step_update j v s)) (steps d)).
Proof. unfold updateStep. simpl. now rewrite map_map. Qed.

Lemma with_steps_map_ext d (f g : TestStep -> TestStep) :
  (forall s, f s = g s) ->
  with_steps d (map f (steps d)) = with_steps d (map g (steps d)).
Proof. intros H. f_equal. now apply map_ext. Qed.

(** X2.  How calls of [updateStep] compose: the same call twice is the
    call once; of two titles given to the same step the later stays; a
    title and a content given to the same step can come in either
    order; and updates of two different steps, neither carrying an
    [id], can come in either order. *)
Theorem updateStep_composes d i j (u v : StepUpdates) (t1 t2 c : string) :
  updateStep i u (updateStep i u d) = updateStep i u d
  /\ updateStep i (title_update t2) (updateStep i (title_update t1) d)
     = updateStep i (title_update t2) d
  /\ updateStep i (title_update t1) (updateStep i (content_update c) d)
     = updateStep i (content_update c) (updateStep i (title_update t1) d)
  /\ (i <> j -> u_id u = None -> u_id v = None ->
      updateStep i u (updateStep j v d) = updateStep j v (updateStep i u d)).
Proof.
  assert (N : forall (x y : string), x <> y -> (x =? y) = false)
    by (intros x y; apply String.eqb_neq).
  split; [|split; [|split]].
  - rewrite updateStep_twice. apply with_steps_map_ext.
    intros s. unfold step_update.
    destruct (String.eqb_spec (id s) i) as [E|NE]; [|now rewrite N].
    destruct (id (merge_step s u) =? i); [|reflexivity].
    unfold merge_step. simpl.
    destruct (u_id u), (u_title u), (u_content u); reflexivity.
  - rewrite updateStep_twice. apply with_steps_map_ext.
    intros s. unfold step_update.
    destruct (String.eqb_spec (id s) i) as [E|NE]; [|now rewrite N].
    simpl. now rewrite E, String.eqb_refl.
  - rewrite !updateStep_twice. apply with_steps_map_ext.
    intros s. unfold step_update.
    destruct (String.eqb_spec (id s) i) as [E|NE]; [|now rewrite N].
    simpl. now rewrite E, String.eqb_refl.
  - intros Hij Hu Hv. rewrite !updateStep_twice. apply with_steps_map_ext.
    intros s. unfold step_update.
    destruct (id s =? i) eqn:Ei, (id s =? j) eqn:Ej;
      rewrite ?merge_step_id, ?Ei, ?Ej by assumption; try reflexivity.
    apply String.eqb_eq in Ei, Ej. congruence.
Qed.

End StoreAlgebra.

Section EditorSync.

Implicit Types (r : EditorRefs) (q : Quill) (d : AppData).

(** X7.  No loop from the outbound path: when the editor reports a
    change, [updateStep] stores the buffer as the content of the step
    with the editor's id and touches no other step or id; run with that
    content, the inbound path of the same editor assigns nothing. *)
Theorem text_change_does_not_write_back d r (i : string) :
  let d' := on_text_change i r d in
  ids d' = ids d
  /\ (forall s, In s (steps d') -> id s = i ->
       content s = text_change_payload r
       /\ (forall q, quillRef r = Some q ->
            value_effect (content s) r = {| refs_after := r; writes := [] |}))
  /\ (forall s, In s (steps d') -> id s <> i -> In s (steps d)).
Proof.
  intros d'. split; [apply ids_updateStep; reflexivity|]. split.
  - intros s Hs Hi. unfold d', on_text_change, updateStep in Hs. simpl in Hs.
    apply in_map_iff in Hs as (s0 & E & _).
    destruct (String.eqb_spec (id s0) i) as [E0|NE0].
    + subst s. simpl. split; [reflexivity|].
      intros q Hq. unfold text_change_payload. rewrite Hq.
      now apply value_effect_same.
    + subst s. contradiction.
  - intros s Hs Hi. unfold d', on_text_change, updateStep in Hs. simpl in Hs.
    apply in_map_iff in Hs as (s0 & E & Hin).
    destruct (String.eqb_spec (id s0) i) as [E0|NE0].
    + subst s. simpl in Hi. contradiction.
    + now subst s.
Qed.

(** X8.  The first render of a [RichTextEditor] whose [div] is mounted
    creates one Quill editor with one ['text-change'] handler.  Its
    mount effect assigns [''] when [value] is empty and nothing
    otherwise; for a non-empty [value] the two effects together assign
    [value] once, or nothing when [value] is already the empty document
    of Quill.  When the [div] is not mounted nothing is created or
    assigned, and the mount effect never adds a handler to an editor
    that exists. *)
Theorem first_render_creates_one_editor (value : string) :
  let fresh := {| editorRef := true; quillRef := None |} in
  let unmounted := {| editorRef := false; quillRef := None |} in
  option_map text_change_handlers
    (quillRef (refs_after (first_render_effects value fresh))) = Some 1
  /\ editorRef (refs_after (first_render_effects value fresh)) = true
  /\ writes (mount_effect value fresh) = (if value =? "" then [""] else [])
  /\ (value <> "" ->
      writes (first_render_effects value fresh)
      = if value =? "<p><br></p>" then [] else [value])
  /\ first_render_effects value unmounted
     = {| refs_after := unmounted; writes := [] |}
  /\ (forall r q, quillRef r = Some q ->
       option_map text_change_handlers
         (quillRef (refs_after (mount_effect value r)))
       = Some (text_change_handlers q)).
Proof.
  intros fresh unmounted.
  assert (N : forall (x y : string), x <> y -> (x =? y) = false)
    by (intros x y; apply String.eqb_neq).
  assert (R : first_render_effects value fresh
              = {| refs_after :=
                     {| editorRef := true;
                        quillRef := Some {| innerHTML := value;
                                            text_change_handlers := 1 |} |};
                   writes := if value =? "<p><br></p>" then [] else [value] |}).
  { unfold first_render_effects, mount_effect, value_effect, fresh,
      new_Quill, quill_empty_html. cbn [editorRef quillRef innerHTML].
    destruct (String.eqb_spec value "") as [->|NE]; [reflexivity|].
    destruct (String.eqb_spec value "<p><br></p>") as [->|NE'];
      [reflexivity|].
    rewrite (N _ _ (not_eq_sym NE')). cbn.
    rewrite (N _ _ NE'). reflexivity. }
  split; [now rewrite R|]. split; [now rewrite R|]. split.
  { unfold mount_effect, fresh, new_Quill, quill_empty_html.
    cbn [editorRef quillRef innerHTML].
    destruct (String.eqb_spec value "") as [->|NE]; [reflexivity|].
    destruct (String.eqb_spec "<p><br></p>" value) as [E|NE'];
      reflexivity. }
  split; [intros _; now rewrite R|]. split.
  - reflexivity.
  - intros r q Hq. unfold mount_effect. rewrite Hq.
    assert (E : match editorRef r with true | _ => r end = r)
      by now destruct (editorRef r).
    rewrite E, Hq.
    destruct (innerHTML q =? value); simpl; [now rewrite Hq|].
    destruct (value =? ""); simpl; [reflexivity|].
    destruct (innerHTML q =? "<p><br></p>"); simpl; now rewrite Hq.
Qed.

End EditorSync.

Lemma falsy_iff (x : string) : falsy x = true <-> x = "".
Proof. unfold falsy. apply String.eqb_eq. Qed.

(** X9.  [handlePrint] never changes the state and makes exactly one
    call: [window.print()] when [jiraNumber] and [jiraName] are both
    non-empty, and the [alert] otherwise. *)
Theorem handlePrint_prints_iff_named (s : AppState) :
  fst (handlePrint s) = s
  /\ (handlePrint s = (s, [window_print])
      <-> jiraNumber (data s) <> "" /\ jiraName (data s) <> "")
  /\ (handlePrint s = (s, [alert msg_fill_jira])
      <-> jiraNumber (data s) = "" \/ jiraName (data s) = "").
Proof.
  unfold handlePrint, falsy.
  destruct (String.eqb_spec (jiraNumber (data s)) "") as [A|A];
    destruct (String.eqb_spec (jiraName (data s)) "") as [B|B]; simpl;
    (split; [reflexivity|]); split; split; intros H;
    try discriminate H; try reflexivity; tauto.
Qed.

(** X10.  With both fields filled, [generatePDF] raises [isGenerating]
    and starts the timer; when the timer has run, whether the export
    succeeded or not, [isGenerating] is down again and [data] is what it
    was.  The timer asks for the export once, under the name
    [Cahier_Tests_<jiraNumber>.pdf], and does nothing else when it
    succeeds; when it fails, the error is logged and the [alert] shown,
    once each. *)
Theorem generatePDF_cycle (s : Legacy.AppState) (saved : bool) :
  jiraNumber (Legacy.data s) <> "" -> jiraName (Legacy.data s) <> "" ->
  let started := fst (Legacy.generatePDF s) in
  let export :=
    html2pdf_save ("Cahier_Tests_" ++ jiraNumber (Legacy.data s) ++ ".pdf") in
  Legacy.generatePDF s
  = ({| Legacy.data := Legacy.data s; Legacy.isGenerating := true |},
     [setTimeout 500])
  /\ Legacy.generatePDF_timer saved started
     = ({| Legacy.data := Legacy.data s; Legacy.isGenerating := false |},
        if saved then [export]
        else [export; console_error;
              alert "Erreur lors de la génération du PDF."]).
Proof.
  intros Hn Hm started export.
  assert (E : Legacy.generatePDF s
              = ({| Legacy.data := Legacy.data s;
                    Legacy.isGenerating := true |}, [setTimeout 500])).
  { unfold Legacy.generatePDF.
    destruct (falsy (jiraNumber (Legacy.data s))) eqn:A;
      [apply falsy_iff in A; contradiction|].
    destruct (falsy (jiraName (Legacy.data s))) eqn:B;
      [apply falsy_iff in B; contradiction|]. reflexivity. }
  split; [exact E|]. unfold started. rewrite E.
  unfold Legacy.generatePDF_timer, export. cbn [fst Legacy.data].
  now destruct saved.
Qed.

Lemma generatePDF_cycle_witness :
  let d := handleInputChange (change_jiraName "Facturation")
             (handleInputChange (change_jiraNumber "ERP-1234")
                (INITIAL_DATA "2024-05-17" "a")) in
  let s := {| Legacy.data := d; Legacy.isGenerating := false |} in
  Legacy.generatePDF_timer false (fst (Legacy.generatePDF s))
  = (s, [ html2pdf_save "Cahier_Tests_ERP-1234.pdf"; console_error;
          alert "Erreur lors de la génération du PDF." ]).
Proof.
  intros d s.
  refine (proj2 (generatePDF_cycle s false _ _)); discriminate.
Defined.

Section Fields.

Implicit Types (d : AppData) (e : InputChange).

Lemma replace_non_digits_idem (x : string) :
  replace_non_digits (replace_non_digits x) = replace_non_digits x.
Proof.
  induction x as [|c x IH]; simpl; [reflexivity|].
  destruct (is_digit c) eqn:E; simpl; [rewrite E|]; now rewrite IH.
Qed.

Lemma replace_non_digits_only_digits (x : string) :
  Forall (fun c => is_digit c = true)
    (list_ascii_of_string (replace_non_digits x)).
Proof.
  induction x as [|c x IH]; simpl; [constructor|].
  destruct (is_digit c) eqn:E; simpl; [constructor|]; assumption.
Qed.

Lemma replace_non_digits_length (x : string) :
  String.length (replace_non_digits x) <= String.length x.
Proof.
  induction x as [|c x IH]; simpl; [lia|].
  destruct (is_digit c); simpl; lia.
Qed.


Lemma digits_hold_no_quote (x : string) :
  Forall (fun c => is_digit c = true) (list_ascii_of_string x) ->
  ~ In "039"%char (list_ascii_of_string x).
Proof.
  intros H Hin. rewrite Forall_forall in H. apply H in Hin.
  discriminate Hin.
Qed.

(** X15.  What the SQL query puts between its fixed parts is either the
    literal [XXXX], when [jiraNumber] has no digit, or exactly the
    digits of [jiraNumber] in order, every character of it a digit: no
    other character of [jiraNumber] reaches the query, and in particular
    no quote.  The digits are never more than [jiraNumber] is long, and
    typing them as [jiraNumber] gives the same query. *)
Theorem sql_query_embeds_digits_only d :
  let embedded := str_or (jiraDigits d) "XXXX" in
  let digits :=
    string_of_list_ascii
      (filter is_digit (list_ascii_of_string (jiraNumber d))) in
  sqlQuery d
  = "select * from ps_s1_scripts_tbl where s1_script_name like '%"
    ++ embedded ++ "J%';"
  /\ (digits = "" /\ embedded = "XXXX"
      \/ digits <> "" /\ embedded = digits
         /\ Forall (fun c => is_digit c = true)
              (list_ascii_of_string embedded))
  /\ ~ In "039"%char (list_ascii_of_string embedded)
  /\ String.length digits <= String.length (jiraNumber d)
  /\ sqlQuery (handleInputChange (change_jiraNumber (jiraDigits d)) d)
     = sqlQuery d.
Proof.
  intros embedded digits.
  assert (E : jiraDigits d = digits) by apply replace_non_digits_filter.
  assert (D : Forall (fun c => is_digit c = true)
                (list_ascii_of_string (jiraDigits d)))
    by apply replace_non_digits_only_digits.
  assert (C : digits = "" /\ embedded = "XXXX"
              \/ digits <> "" /\ embedded = digits
                 /\ Forall (fun c => is_digit c = true)
                      (list_ascii_of_string embedded)).
  { unfold embedded, str_or, falsy. rewrite E in *.
    destruct (String.eqb_spec digits "") as [Z|NZ]; [now left|].
    right. now repeat split. }
  split; [reflexivity|]. split; [exact C|]. split; [|split].
  - destruct C as [[_ ->]|(_ & _ & F)].
    + simpl. intros [H|[H|[H|[H|[]]]]]; discriminate H.
    + now apply digits_hold_no_quote.
  - rewrite <- E. apply replace_non_digits_length.
  - unfold sqlQuery, jiraDigits. simpl.
    now rewrite replace_non_digits_idem.
Qed.

End Fields.

Section RenderedContent.

Implicit Types (d : AppData) (s : TestStep) (n : Node).

Lemma find_class_element c tag props children :
  find_class c (Element tag props children)
  = if has_class c (Element tag props children)
    then Some (Element tag props children)
    else find_first c children.
Proof.
  simpl. destruct (match prop_of "className" props with
                   | Some c' => c' =? c | None => false end);
    [reflexivity|].
  induction children as [|x l IH]; simpl; [reflexivity|].
  destruct (find_class c x); [reflexivity|exact IH].
Qed.

Lemma find_first_app c l1 l2 :
  find_first c (l1 ++ l2)
  = match find_first c l1 with
    | Some y => Some y
    | None => find_first c l2
    end.
Proof.
  induction l1 as [|x l1 IH]; simpl; [reflexivity|].
  destruct (find_class c x); [reflexivity|exact IH].
Qed.

Lemma mapi_from_nth {A B} (f : A -> nat -> B) (l : list A) :
  forall i k, nth_error (mapi_from f i l) k
              = option_map (fun x => f x (i + k)) (nth_error l k).
Proof.
  induction l as [|a l IH]; intros i k; simpl.
  - now destruct k.
  - destruct k as [|k]; simpl.
    + now rewrite Nat.add_0_r.
    + rewrite IH. now rewrite Nat.add_succ_r.
Qed.

Lemma mapi_from_length {A B} (f : A -> nat -> B) (l : list A) :
  forall i, length (mapi_from f i l) = length l.
Proof. induction l as [|a l IH]; intros i; simpl; [reflexivity|now rewrite IH]. Qed.

Lemma filter_app_none {A} (f : A -> bool) (l : list A) :
  (forall x, In x l -> f x = false) -> filter f l = [].
Proof.
  induction l as [|a l IH]; simpl; intros H; [reflexivity|].
  rewrite (H a (or_introl eq_refl)). apply IH. intros x Hx. apply H. now right.
Qed.

Lemma filter_mapi_steps (l : list TestStep) :
  forall i, filter is_step_block (mapi_from step_block i l)
            = mapi_from step_block i l.
Proof. induction l as [|a l IH]; intros i; simpl; [reflexivity|now rewrite IH]. Qed.

(** X12.  The content section prints every step once and in document
    order: its keyed blocks are exactly one block per step.  The block
    at position [k] is headed [Étape k+1 : <title>], numbered by
    position whatever the title says, and carries the step's content
    unchanged as the markup of its [ql-editor] element. *)
Theorem steps_rendered_in_order d (j : string) :
  filter is_step_block (children_of (pdf_content d j))
  = mapi step_block (steps d)
  /\ length (mapi step_block (steps d)) = length (steps d)
  /\ (forall k s, nth_error (steps d) k = Some s ->
      nth_error (mapi step_block (steps d)) k = Some (step_block s k)
      /\ option_map text_of (find_class "step-title" (step_block s k))
         = Some ("Étape " ++ decimal (k + 1) ++ " : " ++ title s)
      /\ find_class "ql-editor" (step_block s k)
         = Some (Element "div"
                   [ className "ql-editor";
                     ("style", "padding: 0; minHeight: auto");
                     ("dangerouslySetInnerHTML", content s) ] [])).
Proof.
  split; [|split].
  - unfold pdf_content, div, children_of. rewrite !filter_app.
    unfold mapi. rewrite filter_mapi_steps.
    assert (I : filter is_step_block (image_block d) = []).
    { unfold image_block. destruct (localImage d) as [src|]; [|reflexivity].
      now destruct (falsy src). }
    rewrite I. simpl. now rewrite app_nil_r.
  - apply mapi_from_length.
  - intros k s Hk. split; [|split].
    + unfold mapi. now rewrite mapi_from_nth, Hk.
    + simpl. now rewrite JsonFacts.append_nil_r.
    + reflexivity.
Qed.

Lemma find_first_steps_none c (l : list TestStep) :
  c = "conclusion-ok" \/ c = "conclusion-ko" \/ c = "pdf-image-main" ->
  forall i, find_first c (mapi_from step_block i l) = None.
Proof.
  intros Hc. induction l as [|a l IH]; intros i; [reflexivity|].
  cbn [mapi_from find_first].
  replace (find_class c (step_block a i)) with (@None Node)
    by (destruct Hc as [->|[->| ->]]; reflexivity).
  apply IH.
Qed.

Lemma find_first_image_none c d :
  c = "conclusion-ok" \/ c = "conclusion-ko" ->
  find_first c (image_block d) = None.
Proof.
  intros Hc. unfold image_block.
  destruct (localImage d) as [src|]; [|reflexivity].
  destruct (falsy src); [reflexivity|].
  destruct Hc as [->| ->]; reflexivity.
Qed.

Lemma count_class_element c tag props children :
  count_class c (Element tag props children)
  = (if has_class c (Element tag props children) then 1 else 0)
    + count_all c children.
Proof.
  cbn [count_class]. f_equal.
  induction children as [|x l IH]; [reflexivity|].
  cbn [count_all]. now rewrite IH.
Qed.

Lemma count_all_app c l1 l2 :
  count_all c (l1 ++ l2) = count_all c l1 + count_all c l2.
Proof.
  induction l1 as [|x l1 IH]; simpl; [reflexivity|].
  rewrite IH. lia.
Qed.

Lemma count_all_steps_none c (l : list TestStep) :
  c = "conclusion-ok" \/ c = "conclusion-ko" ->
  forall i, count_all c (mapi_from step_block i l) = 0.
Proof.
  intros Hc. induction l as [|a l IH]; intros i; [reflexivity|].
  cbn [mapi_from count_all].
  replace (count_class c (step_block a i)) with 0
    by (destruct Hc as [->| ->]; reflexivity).
  apply IH.
Qed.

Lemma count_all_image_none c d :
  c = "conclusion-ok" \/ c = "conclusion-ko" ->
  count_all c (image_block d) = 0.
Proof.
  intros Hc. unfold image_block.
  destruct (localImage d) as [src|]; [|reflexivity].
  destruct (falsy src); [reflexivity|].
  destruct Hc as [->| ->]; reflexivity.
Qed.

(** X13.  In the element tree [PrintContent] builds, where the markup
    of a step is a prop of its [ql-editor] element and not a subtree,
    the content section holds exactly one conclusion banner, whatever
    the steps and the image: with conclusion [OK] one element of class
    [conclusion-ok], reading [BON POUR PROD OK], and none of class
    [conclusion-ko]; with [KO] the reverse. *)
Theorem conclusion_banner_follows_conclusion d (j : string) :
  let banner c label := div c [Text "BON POUR PROD "; Text label] in
  match conclusion d with
  | OK =>
      find_class "conclusion-ok" (pdf_content d j)
      = Some (banner "conclusion-ok" "OK")
      /\ count_class "conclusion-ok" (pdf_content d j) = 1
      /\ find_class "conclusion-ko" (pdf_content d j) = None
      /\ count_class "conclusion-ko" (pdf_content d j) = 0
  | KO =>
      find_class "conclusion-ko" (pdf_content d j)
      = Some (banner "conclusion-ko" "KO")
      /\ count_class "conclusion-ko" (pdf_content d j) = 1
      /\ find_class "conclusion-ok" (pdf_content d j) = None
      /\ count_class "conclusion-ok" (pdf_content d j) = 0
  end.
Proof.
  intros banner.
  assert (F : forall c,
             c = "conclusion-ok" \/ c = "conclusion-ko" ->
             find_class c (pdf_content d j)
             = find_first c
                 [ div (match conclusion d with
                        | OK => "conclusion-ok" | KO => "conclusion-ko" end)
                     [ Text "BON POUR PROD ";
                       Text (Conclusion_str (conclusion d)) ] ]).
  { intros c Hc. unfold pdf_content, div at 1.
    rewrite find_class_element.
    replace (has_class c _) with false
      by (destruct Hc as [->| ->]; reflexivity).
    rewrite !find_first_app. unfold mapi.
    rewrite find_first_steps_none by tauto.
    rewrite find_first_image_none by exact Hc.
    destruct Hc as [->| ->]; destruct (conclusion d); reflexivity. }
  assert (N : forall c,
             c = "conclusion-ok" \/ c = "conclusion-ko" ->
             count_class c (pdf_content d j)
             = count_all c
                 [ div (match conclusion d with
                        | OK => "conclusion-ok" | KO => "conclusion-ko" end)
                     [ Text "BON POUR PROD ";
                       Text (Conclusion_str (conclusion d)) ] ]).
  { intros c Hc. unfold pdf_content, div at 1.
    rewrite count_class_element.
    replace (has_class c _) with false
      by (destruct Hc as [->| ->]; reflexivity).
    rewrite !count_all_app. unfold mapi.
    rewrite count_all_steps_none by exact Hc.
    rewrite count_all_image_none by exact Hc.
    destruct Hc as [->| ->]; destruct (conclusion d); reflexivity. }
  destruct (conclusion d); rewrite !F, !N by tauto; repeat split.
Qed.

(** X14.  When the image read ends, only [localImage] changes.  The
    content section then shows the image, with the data URL as its
    source, exactly when the read gave a non-empty result; after a
    failed read it shows none. *)
Theorem image_rendered_iff_present d (result : option string) (j : string) :
  let d' := handleImageUpload_onloadend result d in
  find_class "pdf-image-main" (pdf_content d' j)
  = match result with
    | Some src =>
        if src =? "" then None
        else Some (Element "img"
                     [ ("src", src); ("alt", "Local");
                       className "pdf-image-main" ] [])
    | None => None
    end
  /\ steps d' = steps d
  /\ handleImageUpload_onloadend (localImage d) d' = d.
Proof.
  intros d'. split; [|split; [reflexivity|now destruct d]].
  unfold pdf_content, div at 1. rewrite find_class_element.
  replace (has_class _ _) with false by reflexivity.
  rewrite !find_first_app. unfold mapi.
  rewrite find_first_steps_none by tauto.
  unfold image_block, falsy, d'. simpl localImage. simpl conclusion.
  destruct result as [src|], (conclusion d); try reflexivity;
    destruct (src =? ""); reflexivity.
Qed.

End RenderedContent.

Section Storage.

Import Json JsonFacts.

Lemma compact_head v :
  plain v = true ->
  exists c t, SerializeCompact v = String c t
              /\ is_ws c = false /\ Ascii.eqb c "]" = false.
Proof.
  destruct v as [|[|]|n|s|l|m]; simpl; intros H;
    try discriminate; eexists _, _; repeat split; reflexivity.
Qed.

Lemma member_compact_app (k : string) (x : value) (t : string) :
  member_compact (k, x) ++ t
  = String dquote
      (quote_chars k ++ String dquote (String ":" (SerializeCompact x ++ t))).
Proof.
  unfold member_compact.
  rewrite append_assoc, QuoteJSONString_app, append_assoc. reflexivity.
Qed.

Section Compact.

Variable F : nat.
Hypothesis IH :
  forall f, f < F -> forall v, size v <= f -> plain v = true ->
  forall rest, parse_value f (SerializeCompact v ++ rest) = Ok v rest.

Lemma compact_elements (rest : string) :
  forall l x f,
    f <= F ->
    list_sum (map (fun y => S (size y)) (x :: l)) <= f ->
    forallb plain (x :: l) = true ->
    parse_elements f
      (String.concat "," (map SerializeCompact (x :: l)) ++ String "]" rest)
    = Ok (x :: l) rest.
Proof.
  intros l.
  induction l as [|y l IHl]; intros x f HF Hsz Hpl;
    (destruct f as [|f]; [simpl in Hsz; lia|]);
    simpl in Hpl; apply andb_true_iff in Hpl as [Hx Hl];
    cbn [parse_elements].
  - cbn [map String.concat].
    rewrite (IH f) by (try assumption; simpl in Hsz; lia). reflexivity.
  - cbn [map]. rewrite concat_cons2, !append_assoc.
    rewrite (IH f) by (try assumption; simpl in Hsz; lia).
    cbn [bind append]. rewrite skip_ws_head by reflexivity.
    simpl (Ascii.eqb _ _). cbv iota.
    assert (R := IHl y f). cbn [map] in R.
    rewrite R; try assumption.
    + reflexivity.
    + lia.
    + simpl in Hsz |- *. lia.
Qed.

Lemma compact_members (rest : string) :
  forall m kv f,
    f <= F ->
    list_sum (map (fun y => S (size (snd y))) (kv :: m)) <= f ->
    forallb (fun y => plain (snd y)) (kv :: m) = true ->
    parse_members f
      (String.concat "," (map member_compact (kv :: m)) ++ String "}" rest)
    = Ok (kv :: m) rest.
Proof.
  intros m.
  induction m as [|y m IHm]; intros [k x] f HF Hsz Hpl;
    (destruct f as [|f]; [simpl in Hsz; lia|]);
    simpl in Hpl; apply andb_true_iff in Hpl as [Hx Hl];
    cbn [parse_members].
  - cbn [map String.concat]. rewrite member_compact_app.
    rewrite skip_ws_head by reflexivity.
    simpl (Ascii.eqb _ _). cbv iota.
    rewrite parse_chars_quoted. cbn [bind].
    rewrite skip_ws_head by reflexivity. simpl (Ascii.eqb _ _). cbv iota.
    rewrite (IH f) by (try assumption; simpl in Hsz; lia).
    reflexivity.
  - cbn [map]. rewrite concat_cons2, !append_assoc, member_compact_app.
    rewrite skip_ws_head by reflexivity.
    simpl (Ascii.eqb _ _). cbv iota.
    rewrite parse_chars_quoted. cbn [bind].
    rewrite skip_ws_head by reflexivity. simpl (Ascii.eqb _ _). cbv iota.
    rewrite (IH f) by (try assumption; simpl in Hsz; lia).
    cbn [bind append]. rewrite skip_ws_head by reflexivity.
    simpl (Ascii.eqb _ _). cbv iota.
    assert (R := IHm y f). cbn [map] in R.
    rewrite R; try assumption.
    + reflexivity.
    + lia.
    + simpl in Hsz |- *. lia.
Qed.

End Compact.

Lemma compact_at_fuel (F : nat) :
  forall v, size v <= F -> plain v = true ->
  forall rest, parse_value F (SerializeCompact v ++ rest) = Ok v rest.
Proof.
  induction F as [F IH] using lt_wf_ind.
  intros v Hs Hp rest.
  destruct F as [|F]; [destruct v; simpl in Hs; lia|].
  destruct v as [|[|]|n|s|[|x l]|[|kv m]]; try reflexivity.
  - discriminate Hp.
  - cbn [SerializeCompact]. rewrite QuoteJSONString_app.
    cbn [parse_value]. rewrite skip_ws_head by reflexivity.
    simpl (Ascii.eqb _ _). cbv iota.
    now rewrite parse_chars_quoted.
  - cbn [SerializeCompact append]. rewrite !append_assoc. cbn [append].
    cbn [parse_value].
    rewrite skip_ws_head by reflexivity. simpl (Ascii.eqb _ _). cbv iota.
    cbn [plain] in Hp. pose proof Hp as Hp'. cbn [forallb] in Hp'.
    apply andb_true_iff in Hp' as [Hx _].
    destruct (compact_head x Hx) as (c & t & E & Hc & Hc1).
    assert (Hh : exists u,
               skip_ws (String.concat "," (map SerializeCompact (x :: l))
                        ++ String "]" rest) = String c u).
    { cbn [map]. rewrite E.
      destruct (concat_head "," c t (map SerializeCompact l)
                  (String "]" rest)) as [u ->].
      exists u. now apply skip_ws_head. }
    destruct Hh as [u ->]. rewrite Hc1.
    rewrite (compact_elements (S F) IH rest).
    + reflexivity.
    + lia.
    + cbn [size] in Hs. lia.
    + exact Hp.
  - cbn [SerializeCompact append]. rewrite !append_assoc. cbn [append].
    change (map _ (kv :: m)) with (map member_compact (kv :: m)).
    cbn [parse_value].
    rewrite skip_ws_head by reflexivity. simpl (Ascii.eqb _ _). cbv iota.
    cbn [plain] in Hp. apply andb_true_iff in Hp as [Hp Hd].
    assert (Hh : exists u,
               skip_ws (String.concat "," (map member_compact (kv :: m))
                        ++ String "}" rest) = String dquote u).
    { destruct kv as [k x]. cbn [map]. unfold member_compact at 1.
      unfold QuoteJSONString.
      destruct (concat_head "," dquote
                  ((quote_chars k ++ String dquote "")
                   ++ ":" ++ SerializeCompact x)
                  (map member_compact m) (String "}" rest)) as [u E].
      exists u. cbn [append] in E |- *. rewrite E. now apply skip_ws_head. }
    destruct Hh as [u ->]. simpl (Ascii.eqb _ _). cbv iota.
    rewrite (compact_members (S F) IH rest).
    + cbn [bind]. now rewrite object_of_distinct.
    + lia.
    + cbn [size] in Hs. lia.
    + exact Hp.
Qed.

Lemma parse_compact v : plain v = true -> parse (SerializeCompact v) = Some v.
Proof.
  intros Hp. unfold parse.
  set (text := SerializeCompact v).
  set (F := 2 * String.length text + 1).
  assert (R : parse_value (size v) text = Ok v "").
  { rewrite <- (append_nil_r text). now apply compact_at_fuel. }
  assert (A : consumes (String.length text) (parse_value F text)).
  { apply (proj1 (fuel_adequate F)). unfold F. lia. }
  assert (E : parse_value F text = Ok v "").
  { destruct (Nat.le_gt_cases (size v) F) as [L|L].
    - destruct (proj1 (fuel_monotone (size v) F L) text) as [B|B];
        congruence.
    - destruct (proj1 (fuel_monotone F (size v) ltac:(lia)) text)
        as [B|B]; [|congruence].
      rewrite B in A. destruct A. }
  rewrite E. reflexivity.
Qed.

(** X16.  In the earlier revision, [Restaurer] after [Sauvegarder] gives
    the saved document back, whatever [data] and the storage held
    before: the compact text [JSON.stringify(data)] stored under
    [erp_test_notebook_data] parses to the value of the document.
    Saving touches no other key of the storage. *)
Theorem saved_document_is_restored (d : AppData) (st : Legacy.Storage)
  (prev : Json.value) :
  let st' := fst (Legacy.saveToLocalStorage d st) in
  Legacy.restore_click st' prev
  = (AppData_value d, [alert Legacy.msg_restored])
  /\ AppData_of_value (fst (Legacy.restore_click st' prev)) = Some d
  /\ (forall k, k <> Legacy.storage_key ->
                Legacy.getItem st' k = Legacy.getItem st k).
Proof.
  intros st'.
  assert (G : Legacy.getItem st' Legacy.storage_key
              = Some (SerializeCompact (AppData_value d))).
  { unfold st', Legacy.saveToLocalStorage, Legacy.getItem, Legacy.setItem.
    simpl. reflexivity. }
  assert (R : Legacy.restore_click st' prev
              = (AppData_value d, [alert Legacy.msg_restored])).
  { unfold Legacy.restore_click, Legacy.restoreFromLocalStorage.
    rewrite G. rewrite parse_compact by apply plain_AppData.
    reflexivity. }
  split; [exact R|]. split.
  - rewrite R. apply AppData_of_value_AppData.
  - intros k Hk. unfold st', Legacy.saveToLocalStorage, Legacy.getItem,
      Legacy.setItem. simpl.
    now rewrite (proj2 (String.eqb_neq _ _) Hk).
Qed.


(** X17.  [handleFileUpload] does not depend on the layout of the file:
    the compact text of a document, as the earlier revision stored it,
    restores the same document as the indented text [downloadJSON]
    writes. *)
Theorem compact_file_is_restored (d : AppData) (prev : Json.value) :
  handleFileUpload_onload (SerializeCompact (AppData_value d)) prev
  = handleFileUpload_onload (downloadJSON_text d) prev
  /\ handleFileUpload_onload (SerializeCompact (AppData_value d)) prev
     = (AppData_value d, [alert msg_restored]).
Proof.
  assert (C : handleFileUpload_onload (SerializeCompact (AppData_value d))
                prev = (AppData_value d, [alert msg_restored])).
  { unfold handleFileUpload_onload.
    now rewrite parse_compact by apply plain_AppData. }
  split; [|exact C]. rewrite C. unfold handleFileUpload_onload,
    downloadJSON_text.
  now rewrite parse_stringify by apply plain_AppData.
Qed.

End Storage.

Section Session.

Implicit Types (d : AppData) (e : Edit) (es : list Edit).

Lemma apply_edit_unique_ids e d :
  match e with
  | edit_addStep uuid => ~ In uuid (ids d)
  | _ => True
  end ->
  NoDup (ids d) -> NoDup (ids (apply_edit e d)).
Proof.
  intros Hnew Hd. destruct e as [x|c|r|u|i|i t|i h]; simpl.
  - now destruct x.
  - exact Hd.
  - exact Hd.
  - rewrite ids_addStep. now apply NoDup_snoc.
  - unfold ids, removeStep. simpl. now apply NoDup_ids_filter.
  - now rewrite ids_updateStep.
  - now rewrite ids_updateStep.
Qed.

(** X18.  Through a whole session of edits, the ids of the steps stay
    unique: starting from a document with unique ids, as the initial
    document is, and with every id [crypto.randomUUID()] gives new when
    it is given, no sequence of field changes, additions, removals and
    step edits brings two steps to share an id. *)
Theorem session_keeps_ids_unique es d :
  NoDup (ids d) -> uuids_new es d -> NoDup (ids (apply_edits es d)).
Proof.
  revert d. induction es as [|e es IH]; intros d Hd Hnew; simpl.
  - exact Hd.
  - destruct Hnew as [He Hrest]. apply IH; [|exact Hrest].
    now apply apply_edit_unique_ids.
Qed.

Lemma session_keeps_ids_unique_witness :
  let es := [ edit_input (change_jiraNumber "ERP-1234");
              edit_addStep "b"; edit_title "b" "Connexion";
              edit_removeStep "a"; edit_addStep "c";
              edit_content "c" "<p>ok</p>" ] in
  NoDup (ids (apply_edits es (INITIAL_DATA "2024-05-17" "a"))).
Proof.
  intros es. apply session_keeps_ids_unique.
  - simpl. constructor; [intros []|constructor].
  - simpl. repeat split; try exact I.
    + intros [H|[]]. discriminate H.
    + intros [H|[]]. discriminate H.
Defined.

End Session.
